(** * FoodSnap Tutor: the analysis client and the application controller

    A shallow embedding of [services/geminiService.ts] (the image encoder
    [fileToPart] and the client [analyzeFoodImage]) and of [App.tsx] (the five
    [useState] cells, the [useEffect] that starts an analysis, the handlers
    and [renderContent]), followed by the properties the specification states
    about them.

    Conventions.
    - A JavaScript string is a [string]; text that is not ASCII is held in its
      UTF-8 bytes.
    - An [async] function is a computation in the [Promise] monad below: it
      either resolves with a value or rejects with the thrown value.
    - A React event (a handler call, or the completion of an awaited call) is
      one atomic step: the handler's batched state updates, the re-render and
      the effects that the re-render schedules. *)

From Stdlib Require Import String Ascii List Bool Arith ZArith Lia.
From Stdlib.Strings Require Import Byte.
Import ListNotations.
Local Open Scope list_scope.
Local Open Scope string_scope.
Local Set Warnings "-register-all".

(* ------------------------------------------------------------------------- *)
(** ** The JavaScript platform the code runs on *)
(* ------------------------------------------------------------------------- *)

Module JS.

(** *** Thrown values and promises *)

(** What a [catch] clause can receive: an [Error] instance with its message,
    or some other value (the [ProgressEvent] that [FileReader.onerror]
    delivers is not an [Error]). *)
Inductive Thrown : Type :=
| ErrorObj (message : string)
| NotAnError.

Inductive Promise (A : Type) : Type :=
| Resolved (a : A)
| Rejected (e : Thrown).
Arguments Resolved {A} a.
Arguments Rejected {A} e.

Definition await {A B : Type} (p : Promise A) (k : A -> Promise B) : Promise B :=
  match p with
  | Resolved a => k a
  | Rejected e => Rejected e
  end.

Notation "'let*' x ':=' p 'in' k" := (await p (fun x => k))
  (at level 10, x name, p at level 200, k at level 200).

(** *** Strings *)

Definition chr (n : nat) : ascii := ascii_of_nat n.
Definition code (c : ascii) : nat := nat_of_ascii c.

Definition truthy_string (s : string) : bool :=
  match s with
  | EmptyString => false
  | String _ _ => true
  end.

(** [strip p s] is the rest of [s] after its prefix [p], when [p] is one. *)
Fixpoint strip (p s : string) : option string :=
  match p, s with
  | EmptyString, _ => Some s
  | String a p', String b s' => if Ascii.eqb a b then strip p' s' else None
  | String _ _, EmptyString => None
  end.

Fixpoint strip_any (ps : list string) (s : string) : option string :=
  match ps with
  | [] => None
  | p :: ps' =>
      match strip p s with
      | Some r => Some r
      | None => strip_any ps' s
      end
  end.

Definition bytes (l : list nat) : string := string_of_list_ascii (map chr l).

Definition string_rev (s : string) : string :=
  string_of_list_ascii (rev (list_ascii_of_string s)).

(** ECMAScript LineTerminator: LF, CR, U+2028, U+2029. *)
Definition line_terminators : list string :=
  [ bytes [10]; bytes [13]; bytes [226; 128; 168]; bytes [226; 128; 169] ].

(** ECMAScript WhiteSpace: TAB, VT, FF, SP, NBSP, ZWNBSP and the Unicode
    space separators. *)
Definition white_space : list string :=
  [ bytes [9]; bytes [11]; bytes [12]; bytes [32]; bytes [194; 160];
    bytes [239; 187; 191]; bytes [225; 154; 128];
    bytes [226; 128; 128]; bytes [226; 128; 129]; bytes [226; 128; 130];
    bytes [226; 128; 131]; bytes [226; 128; 132]; bytes [226; 128; 133];
    bytes [226; 128; 134]; bytes [226; 128; 135]; bytes [226; 128; 136];
    bytes [226; 128; 137]; bytes [226; 128; 138]; bytes [226; 128; 175];
    bytes [226; 129; 159]; bytes [227; 128; 128] ].

(** What [String.prototype.trim] removes at both ends. *)
Definition trimmable : list string := white_space ++ line_terminators.

Fixpoint trim_front (tokens : list string) (fuel : nat) (s : string) : string :=
  match fuel with
  | O => s
  | S fuel' =>
      match strip_any tokens s with
      | Some r => trim_front tokens fuel' r
      | None => s
      end
  end.

Definition trimStart (s : string) : string :=
  trim_front trimmable (String.length s) s.

Definition trimEnd (s : string) : string :=
  string_rev (trim_front (map string_rev trimmable) (String.length s) (string_rev s)).

(** [s.trim()] *)
Definition trim (s : string) : string := trimEnd (trimStart s).

(** [s.split(sep)] for a one-character separator: the pieces between the
    separators, in order; never an empty array. *)
Fixpoint split (sep : ascii) (s : string) : list string :=
  match s with
  | EmptyString => [EmptyString]
  | String c rest =>
      if Ascii.eqb c sep then EmptyString :: split sep rest
      else match split sep rest with
           | piece :: pieces => String c piece :: pieces
           | [] => [String c EmptyString]
           end
  end.

Definition starts_with_any (ps : list string) (s : string) : bool :=
  match strip_any ps s with
  | Some _ => true
  | None => false
  end.

(** The regular expression [/:(.*?);/] of [fileToPart].  [until_semicolon s]
    is what the lazy group [(.*?)] captures when the text after the colon is
    [s]: the characters before the first [;], provided no line terminator
    comes before it ([.] does not match one). *)
Fixpoint until_semicolon (s : string) : option string :=
  match s with
  | EmptyString => None
  | String c rest =>
      if Ascii.eqb c ";" then Some EmptyString
      else if starts_with_any line_terminators s then None
      else option_map (String c) (until_semicolon rest)
  end.

(** [s.match(/:(.*?);/)]: [None] is the [null] of a failed match, [Some g]
    a match whose group 1 is [g].  The match starts at the leftmost colon
    from which the rest of the pattern can be matched. *)
Fixpoint match_colon_semicolon (s : string) : option string :=
  match s with
  | EmptyString => None
  | String c rest =>
      if Ascii.eqb c ":" then
        match until_semicolon rest with
        | Some g => Some g
        | None => match_colon_semicolon rest
        end
      else match_colon_semicolon rest
  end.

(** *** JSON values and [JSON.parse] *)

(** What [JSON.parse] can return.  A number keeps its lexeme; [JNull] is the
    JavaScript [null]. *)
Inductive JSON : Type :=
| JNull
| JBool (b : bool)
| JNumber (lexeme : string)
| JString (s : string)
| JArray (items : list JSON)
| JObject (members : list (string * JSON)).

(** [o.key] on a parsed value: the member of that name (the last one when the
    text repeats a name), [None] for [undefined].  Arrays, strings, numbers
    and booleans have none of the names the application reads. *)
Fixpoint lookup (key : string) (members : list (string * JSON)) : option JSON :=
  match members with
  | [] => None
  | (k, v) :: rest =>
      match lookup key rest with
      | Some later => Some later
      | None => if String.eqb k key then Some v else None
      end
  end.

Definition get (v : JSON) (key : string) : option JSON :=
  match v with
  | JObject members => lookup key members
  | _ => None
  end.

Definition is_digit (c : ascii) : bool := ((48 <=? code c) && (code c <=? 57))%nat.

Definition digit_value (c : ascii) : Z := Z.of_nat (code c - 48).

(** The digits of the mantissa read as one integer [m], the number [f] of
    them after the point, and the text after the exponent mark, if any. *)
Fixpoint scan_mantissa (s : string) (point : bool) (m f : Z) : Z * Z * option string :=
  match s with
  | EmptyString => (m, f, None)
  | String c rest =>
      if Ascii.eqb c "e" || Ascii.eqb c "E" then (m, f, Some rest)
      else if Ascii.eqb c "." then scan_mantissa rest true m f
      else if is_digit c
           then scan_mantissa rest point (Z.add (Z.mul m 10) (digit_value c))
                              (if point then Z.succ f else f)
      else scan_mantissa rest point m f
  end.

Fixpoint digits_value (s : string) (acc : Z) : Z :=
  match s with
  | EmptyString => acc
  | String c rest => digits_value rest (Z.add (Z.mul acc 10) (digit_value c))
  end.

Definition exponent_value (e : option string) : Z :=
  match e with
  | None => 0%Z
  | Some (String c rest as d) =>
      if Ascii.eqb c "-" then Z.opp (digits_value rest 0%Z)
      else if Ascii.eqb c "+" then digits_value rest 0%Z
      else digits_value d 0%Z
  | Some EmptyString => 0%Z
  end.

(** Whether the number a lexeme writes is [0] once [JSON.parse] has rounded
    it to a double.  The lexeme writes [m * 10 ^ e] (up to sign); that rounds
    to zero exactly when it is at most [2 ^ -1075], half the least positive
    double (the tie goes to the even neighbour, which is zero). *)
Definition rounds_to_zero (lexeme : string) : bool :=
  let '(m, f, ex) := scan_mantissa lexeme false 0%Z 0%Z in
  let e := Z.sub (exponent_value ex) f in
  Z.eqb m 0
  || (Z.ltb e 0 && Z.leb (Z.mul m (Z.pow 2 1075)) (Z.pow 10 (Z.opp e))).

(** JavaScript's ToBoolean, on parsed values. *)
Definition truthy (v : JSON) : bool :=
  match v with
  | JNull => false
  | JBool b => b
  | JNumber lexeme => negb (rounds_to_zero lexeme)
  | JString s => truthy_string s
  | JArray _ => true
  | JObject _ => true
  end.

(** ToBoolean of a property that may be [undefined]. *)
Definition truthy_opt (v : option JSON) : bool :=
  match v with
  | Some v => truthy v
  | None => false
  end.

(** JSON white space: space, TAB, LF, CR. *)
Definition is_json_ws (c : ascii) : bool :=
  Ascii.eqb c " " || Ascii.eqb c (chr 9) || Ascii.eqb c (chr 10) || Ascii.eqb c (chr 13).

Fixpoint skip_ws (s : string) : string :=
  match s with
  | String c rest => if is_json_ws c then skip_ws rest else s
  | EmptyString => s
  end.

Definition hex_digit (c : ascii) : option nat :=
  let n := code c in
  if ((48 <=? n) && (n <=? 57))%nat then Some (n - 48)
  else if ((65 <=? n) && (n <=? 70))%nat then Some (n - 55)
  else if ((97 <=? n) && (n <=? 102))%nat then Some (n - 87)
  else None.

Definition hex4 (a b c d : ascii) : option N :=
  match hex_digit a, hex_digit b, hex_digit c, hex_digit d with
  | Some x, Some y, Some z, Some w =>
      Some (((N.of_nat x * 16 + N.of_nat y) * 16 + N.of_nat z) * 16 + N.of_nat w)%N
  | _, _, _, _ => None
  end.

(** The UTF-8 bytes of a code point; a code unit that stands alone (a lone
    surrogate included) is written the same way. *)
Definition utf8 (n : N) : string :=
  let byte (k : N) : nat := N.to_nat k in
  if (n <? 128)%N then bytes [byte n]
  else if (n <? 2048)%N then bytes [byte (192 + n / 64); byte (128 + n mod 64)]%N
  else if (n <? 65536)%N
       then bytes [byte (224 + n / 4096); byte (128 + (n / 64) mod 64);
                   byte (128 + n mod 64)]%N
  else bytes [byte (240 + n / 262144); byte (128 + (n / 4096) mod 64);
              byte (128 + (n / 64) mod 64); byte (128 + n mod 64)]%N.

Definition is_high_surrogate (n : N) : bool := ((55296 <=? n) && (n <=? 56319))%N.
Definition is_low_surrogate (n : N) : bool := ((56320 <=? n) && (n <=? 57343))%N.

(** The code point of a surrogate pair. *)
Definition pair_code_point (high low : N) : N :=
  (65536 + (high - 55296) * 1024 + (low - 56320))%N.

(** The double quote. *)
Definition quote : ascii := chr 34.

Definition simple_escape (c : ascii) : option ascii :=
  if Ascii.eqb c quote then Some quote
  else if Ascii.eqb c "\" then Some "\"%char
  else if Ascii.eqb c "/" then Some "/"%char
  else if Ascii.eqb c "b" then Some (chr 8)
  else if Ascii.eqb c "f" then Some (chr 12)
  else if Ascii.eqb c "n" then Some (chr 10)
  else if Ascii.eqb c "r" then Some (chr 13)
  else if Ascii.eqb c "t" then Some (chr 9)
  else None.

Definition prepend (p : string) (r : option (string * string)) : option (string * string) :=
  match r with
  | Some (s, rest) => Some (p ++ s, rest)
  | None => None
  end.

(** The characters of a string literal after its opening quote, up to and
    including the closing quote: the decoded string and the remaining text.
    An escaped surrogate pair is one character. *)
Fixpoint parse_chars (s : string) : option (string * string) :=
  match s with
  | EmptyString => None
  | String c rest =>
      if Ascii.eqb c quote then Some (EmptyString, rest)
      else if Ascii.eqb c "\" then
        match rest with
        | String e rest1 =>
            match simple_escape e with
            | Some ch => prepend (String ch EmptyString) (parse_chars rest1)
            | None =>
                if Ascii.eqb e "u" then
                  match rest1 with
                  | String h1 (String h2 (String h3 (String h4 rest2))) =>
                      match hex4 h1 h2 h3 h4 with
                      | Some n =>
                          match rest2 with
                          | String b (String u (String k1 (String k2 (String k3
                              (String k4 rest3))))) =>
                              match hex4 k1 k2 k3 k4 with
                              | Some low =>
                                  if Ascii.eqb b "\" && Ascii.eqb u "u"
                                     && is_high_surrogate n && is_low_surrogate low
                                  then prepend (utf8 (pair_code_point n low))
                                               (parse_chars rest3)
                                  else prepend (utf8 n) (parse_chars rest2)
                              | None => prepend (utf8 n) (parse_chars rest2)
                              end
                          | _ => prepend (utf8 n) (parse_chars rest2)
                          end
                      | None => None
                      end
                  | _ => None
                  end
                else None
            end
        | EmptyString => None
        end
      else if (code c <? 32)%nat then None
      else prepend (String c EmptyString) (parse_chars rest)
  end.

(** One or more digits. *)
Fixpoint digits (s : string) : string * string :=
  match s with
  | String c rest =>
      if is_digit c then let (d, r) := digits rest in (String c d, r)
      else (EmptyString, s)
  | EmptyString => (EmptyString, s)
  end.

Definition digits1 (s : string) : option (string * string) :=
  match digits s with
  | (EmptyString, _) => None
  | (d, r) => Some (d, r)
  end.

(** [int]: a single [0], or a digit from 1 to 9 followed by digits. *)
Definition parse_int (s : string) : option (string * string) :=
  match s with
  | String c rest =>
      if Ascii.eqb c "0" then Some ("0", rest)
      else if is_digit c then let (d, r) := digits rest in Some (String c d, r)
      else None
  | EmptyString => None
  end.

Definition parse_frac (s : string) : option (string * string) :=
  match s with
  | String c rest =>
      if Ascii.eqb c "." then prepend "." (digits1 rest) else Some (EmptyString, s)
  | EmptyString => Some (EmptyString, s)
  end.

Definition parse_exp (s : string) : option (string * string) :=
  match s with
  | String c rest =>
      if Ascii.eqb c "e" || Ascii.eqb c "E" then
        match rest with
        | String sg rest1 =>
            if Ascii.eqb sg "+" || Ascii.eqb sg "-"
            then prepend (String c (String sg EmptyString)) (digits1 rest1)
            else prepend (String c EmptyString) (digits1 rest)
        | EmptyString => None
        end
      else Some (EmptyString, s)
  | EmptyString => Some (EmptyString, s)
  end.

(** A number: its lexeme and the remaining text. *)
Definition parse_number (s : string) : option (string * string) :=
  let (sign, s0) :=
    match s with
    | String c rest => if Ascii.eqb c "-" then ("-", rest) else (EmptyString, s)
    | EmptyString => (EmptyString, s)
    end in
  match parse_int s0 with
  | Some (i, s1) =>
      match parse_frac s1 with
      | Some (f, s2) =>
          match parse_exp s2 with
          | Some (e, s3) => Some (sign ++ i ++ f ++ e, s3)
          | None => None
          end
      | None => None
      end
  | None => None
  end.

(** The JSON grammar, by recursive descent.  Every call consumes one unit of
    [fuel]; [JSON_parse] passes more than the text is long. *)
Fixpoint parse_value (fuel : nat) (s : string) {struct fuel} : option (JSON * string) :=
  match fuel with
  | O => None
  | S fuel' =>
      match skip_ws s with
      | EmptyString => None
      | String c rest as s0 =>
          if Ascii.eqb c "{" then
            match skip_ws rest with
            | String c1 rest1 as s1 =>
                if Ascii.eqb c1 "}" then Some (JObject [], rest1)
                else match parse_members fuel' s1 with
                     | Some (ms, r) => Some (JObject ms, r)
                     | None => None
                     end
            | EmptyString => None
            end
          else if Ascii.eqb c "[" then
            match skip_ws rest with
            | String c1 rest1 as s1 =>
                if Ascii.eqb c1 "]" then Some (JArray [], rest1)
                else match parse_elements fuel' s1 with
                     | Some (vs, r) => Some (JArray vs, r)
                     | None => None
                     end
            | EmptyString => None
            end
          else if Ascii.eqb c quote then
            match parse_chars rest with
            | Some (str, r) => Some (JString str, r)
            | None => None
            end
          else
            match strip "null" s0, strip "true" s0, strip "false" s0 with
            | Some r, _, _ => Some (JNull, r)
            | _, Some r, _ => Some (JBool true, r)
            | _, _, Some r => Some (JBool false, r)
            | None, None, None =>
                match parse_number s0 with
                | Some (lexeme, r) => Some (JNumber lexeme, r)
                | None => None
                end
            end
      end
  end

with parse_elements (fuel : nat) (s : string) {struct fuel} : option (list JSON * string) :=
  match fuel with
  | O => None
  | S fuel' =>
      match parse_value fuel' s with
      | Some (v, r) =>
          match skip_ws r with
          | String c rest =>
              if Ascii.eqb c "," then
                match parse_elements fuel' rest with
                | Some (vs, r') => Some (v :: vs, r')
                | None => None
                end
              else if Ascii.eqb c "]" then Some ([v], rest)
              else None
          | EmptyString => None
          end
      | None => None
      end
  end

with parse_members (fuel : nat) (s : string) {struct fuel}
  : option (list (string * JSON) * string) :=
  match fuel with
  | O => None
  | S fuel' =>
      match skip_ws s with
      | String q rest =>
          if Ascii.eqb q quote then
            match parse_chars rest with
            | Some (key, r0) =>
                match skip_ws r0 with
                | String c0 r1 =>
                    if Ascii.eqb c0 ":" then
                      match parse_value fuel' r1 with
                      | Some (v, r) =>
                          match skip_ws r with
                          | String c rest' =>
                              if Ascii.eqb c "," then
                                match parse_members fuel' rest' with
                                | Some (ms, r') => Some ((key, v) :: ms, r')
                                | None => None
                                end
                              else if Ascii.eqb c "}" then Some ([(key, v)], rest')
                              else None
                          | EmptyString => None
                          end
                      | None => None
                      end
                    else None
                | EmptyString => None
                end
            | None => None
            end
          else None
      | EmptyString => None
      end
  end.

(** [JSON.parse(text)]: [None] stands for the [SyntaxError] it throws. *)
Definition JSON_parse (text : string) : option JSON :=
  match parse_value (S (String.length text)) text with
  | Some (v, rest) =>
      match skip_ws rest with
      | EmptyString => Some v
      | String _ _ => None
      end
  | None => None
  end.

(** [parse] with fuel [n] never stops short: when it succeeds it has consumed
    text, and any fuel not below the number of characters consumed gives the
    same result. *)
Definition enough_fuel {A : Type} (parse : nat -> string -> option (A * string))
  (n : nat) : Prop :=
  forall s x r, parse n s = Some (x, r) ->
    String.length r < String.length s
    /\ forall m, String.length s - String.length r <= m -> parse m s = Some (x, r).

(** *** Base64 (RFC 4648) *)

(** Six bits, most significant first. *)
Inductive sextet : Type := Sextet (b5 b4 b3 b2 b1 b0 : bool).

Definition bit (b : bool) : nat := if b then 1 else 0.

Definition sextet_index (x : sextet) : nat :=
  let (b5, b4, b3, b2, b1, b0) := x in
  32 * bit b5 + 16 * bit b4 + 8 * bit b3 + 4 * bit b2 + 2 * bit b1 + bit b0.

Definition index_sextet (n : nat) : sextet :=
  match ascii_of_nat n with
  | Ascii b0 b1 b2 b3 b4 b5 _ _ => Sextet b5 b4 b3 b2 b1 b0
  end.

(** The alphabet [A-Za-z0-9+/]. *)
Definition base64_char (x : sextet) : ascii :=
  let n := sextet_index x in
  if (n <? 26)%nat then chr (65 + n)
  else if (n <? 52)%nat then chr (97 + (n - 26))
  else if (n <? 62)%nat then chr (48 + (n - 52))
  else if (n =? 62)%nat then "+"%char
  else "/"%char.

Definition base64_value (c : ascii) : option sextet :=
  let n := code c in
  if ((65 <=? n) && (n <=? 90))%nat then Some (index_sextet (n - 65))
  else if ((97 <=? n) && (n <=? 122))%nat then Some (index_sextet (n - 97 + 26))
  else if ((48 <=? n) && (n <=? 57))%nat then Some (index_sextet (n - 48 + 52))
  else if Ascii.eqb c "+" then Some (index_sextet 62)
  else if Ascii.eqb c "/" then Some (index_sextet 63)
  else None.

(** The four sextets of three bytes; a missing byte counts as zero. *)
Definition sextet1 (a : ascii) : sextet :=
  match a with Ascii _ _ a2 a3 a4 a5 a6 a7 => Sextet a7 a6 a5 a4 a3 a2 end.
Definition sextet2 (a b : ascii) : sextet :=
  match a, b with
  | Ascii a0 a1 _ _ _ _ _ _, Ascii _ _ _ _ b4 b5 b6 b7 => Sextet a1 a0 b7 b6 b5 b4
  end.
Definition sextet3 (b c : ascii) : sextet :=
  match b, c with
  | Ascii b0 b1 b2 b3 _ _ _ _, Ascii _ _ _ _ _ _ c6 c7 => Sextet b3 b2 b1 b0 c7 c6
  end.
Definition sextet4 (c : ascii) : sextet :=
  match c with Ascii c0 c1 c2 c3 c4 c5 _ _ => Sextet c5 c4 c3 c2 c1 c0 end.

(** The three bytes of four sextets. *)
Definition octet1 (x y : sextet) : ascii :=
  match x, y with
  | Sextet x5 x4 x3 x2 x1 x0, Sextet y5 y4 _ _ _ _ => Ascii y4 y5 x0 x1 x2 x3 x4 x5
  end.
Definition octet2 (y z : sextet) : ascii :=
  match y, z with
  | Sextet _ _ y3 y2 y1 y0, Sextet z5 z4 z3 z2 _ _ => Ascii z2 z3 z4 z5 y0 y1 y2 y3
  end.
Definition octet3 (z w : sextet) : ascii :=
  match z, w with
  | Sextet _ _ _ _ z1 z0, Sextet w5 w4 w3 w2 w1 w0 => Ascii w0 w1 w2 w3 w4 w5 z0 z1
  end.

Fixpoint base64_encode_octets (l : list ascii) : string :=
  match l with
  | [] => EmptyString
  | [a] =>
      String (base64_char (sextet1 a))
        (String (base64_char (sextet2 a zero)) "==")
  | [a; b] =>
      String (base64_char (sextet1 a))
        (String (base64_char (sextet2 a b))
           (String (base64_char (sextet3 b zero)) "="))
  | a :: b :: c :: rest =>
      String (base64_char (sextet1 a))
        (String (base64_char (sextet2 a b))
           (String (base64_char (sextet3 b c))
              (String (base64_char (sextet4 c)) (base64_encode_octets rest))))
  end.

Definition base64_encode (data : list byte) : string :=
  base64_encode_octets (map ascii_of_byte data).

(** Decoding of padded base64: groups of four characters, the last of which
    may end in one or two [=]. *)
Fixpoint base64_decode_octets (s : string) : option (list ascii) :=
  match s with
  | EmptyString => Some []
  | String c1 (String c2 (String c3 (String c4 rest))) =>
      match base64_value c1, base64_value c2 with
      | Some x, Some y =>
          if Ascii.eqb c4 "=" then
            match rest with
            | EmptyString =>
                if Ascii.eqb c3 "=" then Some [octet1 x y]
                else match base64_value c3 with
                     | Some z => Some [octet1 x y; octet2 y z]
                     | None => None
                     end
            | String _ _ => None
            end
          else
            match base64_value c3, base64_value c4, base64_decode_octets rest with
            | Some z, Some w, Some tail =>
                Some (octet1 x y :: octet2 y z :: octet3 z w :: tail)
            | _, _, _ => None
            end
      | _, _ => None
      end
  | _ => None
  end.

Definition base64_decode (s : string) : option (list byte) :=
  option_map (map byte_of_ascii) (base64_decode_octets s).

(** *** Files, [FileReader] and object URLs *)

(** A [File] object: its identity as an object ([Object.is] compares it),
    its bytes, its name and its declared media type. *)
Record File : Type := mkFile {
  fid : nat;
  contents : list byte;
  name : string;
  type : string
}.

(** [new File([f], f.name, { type: f.type })], allocated at [id]. *)
Definition File_copy (id : nat) (f : File) : File :=
  {| fid := id; contents := contents f; name := name f; type := type f |}.

(** [Object.is] on values that are [null] or a [File]. *)
Definition same_object (a b : option File) : bool :=
  match a, b with
  | None, None => true
  | Some x, Some y => Nat.eqb (fid x) (fid y)
  | _, _ => false
  end.

(** What a [FileReader] started with [readAsDataURL] delivers: [onload] with
    the result, or [onerror]. *)
Inductive ReaderEvent : Type :=
| OnLoad (result : string)
| OnError.

(** The data URL [readAsDataURL] builds for a file: its declared type, or
    [application/octet-stream] when it declares none, and its bytes in
    base64. *)
Definition declared_or_default (t : string) : string :=
  match t with
  | EmptyString => "application/octet-stream"
  | String _ _ => t
  end.

Definition readAsDataURL (f : File) : string :=
  "data:" ++ declared_or_default (type f) ++ ";base64," ++ base64_encode (contents f).

(** An object URL is named by the order of its creation. *)
Definition ObjectURL : Type := nat.

(** The parsed value is an object. *)
Definition is_object (v : JSON) : bool :=
  match v with
  | JObject _ => true
  | _ => false
  end.

(** [c] does not occur in [s]. *)
Fixpoint without (c : ascii) (s : string) : bool :=
  match s with
  | EmptyString => true
  | String d rest => negb (Ascii.eqb d c) && without c rest
  end.

Fixpoint all_chars (p : ascii -> bool) (s : string) : bool :=
  match s with
  | EmptyString => true
  | String c rest => p c && all_chars p rest
  end.

(** The characters of a declared type as browsers report it for a picked
    image: printable ASCII, with neither [;] (no parameters) nor [,]. *)
Definition media_type_char (c : ascii) : bool :=
  ((32 <=? code c) && (code c <=? 126))%nat
  && negb (Ascii.eqb c ",") && negb (Ascii.eqb c ";").

(** A non-empty bare media type such as [image/png]. *)
Definition bare_media_type (t : string) : bool :=
  truthy_string t && all_chars media_type_char t.

End JS.

(* ------------------------------------------------------------------------- *)
(** ** services/geminiService.ts *)
(* ------------------------------------------------------------------------- *)

Module Service.
Import JS.

(** [{ inlineData: { mimeType, data } }] *)
Record InlineData : Type := mkInlineData { mimeType : string; data : string }.
Record Part : Type := mkPart { inlineData : InlineData }.

(** The response schema sent with the request (descriptions left out). *)
Inductive Schema : Type :=
| BOOLEAN
| STRING
| ARRAY (items : Schema)
| OBJECT (properties : list (string * Schema)) (required : list string).

Definition schema : Schema :=
  OBJECT
    [ ("isFood", BOOLEAN);
      ("dishName", STRING);
      ("recipe",
        OBJECT [ ("ingredients", ARRAY STRING); ("steps", ARRAY STRING) ]
               [ "ingredients"; "steps" ]);
      ("nutrition",
        OBJECT [ ("calories", STRING); ("protein", STRING);
                 ("carbs", STRING); ("fat", STRING) ]
               [ "calories"; "protein"; "carbs"; "fat" ]);
      ("healthierVariation", STRING);
      ("friendlyAdvice", STRING) ]
    [ "isFood"; "dishName"; "recipe"; "nutrition"; "healthierVariation" ].

Definition required_fields (sch : Schema) : list string :=
  match sch with
  | OBJECT _ required => required
  | _ => []
  end.

(** The argument of [ai.models.generateContent] (the prompt text left out). *)
Record Request : Type := mkRequest {
  model : string;
  imagePart : Part;
  responseMimeType : string;
  responseSchema : Schema
}.

(** What the client reads of the service's response:
    [response.promptFeedback?.blockReason] ([None] when undefined) and
    [response.text] ([None] when the response has no text and the getter
    answers [undefined]). *)
Record GenerateContentResponse : Type := mkResponse {
  blockReason : option string;
  text : option string
}.

(** The two external collaborators of one call: the [FileReader] and the
    hosted model. *)
Record Env : Type := mkEnv {
  reader : File -> ReaderEvent;
  generateContent : Request -> Promise GenerateContentResponse
}.

Definition fileToPart (env : Env) (file : File) : Promise Part :=
  let* dataUrl :=
    match reader env file with
    | OnLoad result => Resolved result
    | OnError => Rejected NotAnError
    end in
  let arr := split "," dataUrl in
  if (List.length arr <? 2)%nat then Rejected (ErrorObj "Invalid data URL")
  else
    match match_colon_semicolon (nth 0 arr EmptyString) with
    | None => Rejected (ErrorObj "Could not parse MIME type from data URL")
    | Some group1 =>
        if negb (truthy_string group1)
        then Rejected (ErrorObj "Could not parse MIME type from data URL")
        else Resolved (mkPart (mkInlineData group1 (nth 1 arr EmptyString)))
    end.

Definition blocked_message (reason : string) : string :=
  "Request was blocked due to: " ++ reason ++ ". This may be due to safety settings.".

Definition invalid_message : string :=
  "The AI returned an invalid response. Please try again with a clearer image.".

(** The message of the [TypeError] that [response.text.trim()] throws on an
    [undefined] text.  The wording is the engine's; this is V8's. *)
Definition no_text_message : string :=
  "Cannot read properties of undefined (reading 'trim')".

(** [response.promptFeedback?.blockReason] as the condition of an [if]. *)
Definition truthy_reason (r : option string) : bool :=
  match r with
  | Some reason => truthy_string reason
  | None => false
  end.

Definition reason_text (r : option string) : string :=
  match r with
  | Some reason => reason
  | None => "undefined"
  end.

(** The [generateContent] argument built around the encoded image. *)
Definition request_for (part : Part) : Request :=
  {| model := "gemini-2.5-flash"; imagePart := part;
     responseMimeType := "application/json"; responseSchema := schema |}.

Definition analyzeFoodImage (env : Env) (imageFile : File) : Promise JSON :=
  let* part := fileToPart env imageFile in
  let* response := generateContent env (request_for part) in
  if truthy_reason (blockReason response)
  then Rejected (ErrorObj (blocked_message (reason_text (blockReason response))))
  else
    match text response with
    | None => Rejected (ErrorObj no_text_message)
    | Some responseText =>
        let jsonText := trim responseText in
        match JSON_parse jsonText with
        | Some parsedJson => Resolved parsedJson
        | None => Rejected (ErrorObj invalid_message)
        end
    end.

End Service.

(* ------------------------------------------------------------------------- *)
(** ** App.tsx: the result block *)
(* ------------------------------------------------------------------------- *)

Module Result.
Import JS.

(** The interface [FoodAnalysis] of the service. *)
Record FoodAnalysis : Type := mkFoodAnalysis {
  isFood : bool;
  dishName : string;
  ingredients : list string;
  steps : list string;
  calories : string;
  protein : string;
  carbs : string;
  fat : string;
  healthierVariation : string;
  friendlyAdvice : option string
}.

Definition as_bool (x : option JSON) : option bool :=
  match x with
  | Some (JBool b) => Some b
  | _ => None
  end.

Definition as_string (x : option JSON) : option string :=
  match x with
  | Some (JString s) => Some s
  | _ => None
  end.

Fixpoint as_strings (items : list JSON) : option (list string) :=
  match items with
  | [] => Some []
  | JString s :: rest =>
      match as_strings rest with
      | Some l => Some (s :: l)
      | None => None
      end
  | _ :: _ => None
  end.

Definition as_string_array (x : option JSON) : option (list string) :=
  match x with
  | Some (JArray items) => as_strings items
  | _ => None
  end.

Definition as_optional_string (x : option JSON) : option (option string) :=
  match x with
  | None => Some None
  | Some (JString s) => Some (Some s)
  | Some _ => None
  end.

(** The parsed value read at the type [FoodAnalysis]: every member the
    interface requires is there with its type, in any order and among any
    others. *)
Definition as_FoodAnalysis (v : JSON) : option FoodAnalysis :=
  match as_bool (get v "isFood"), as_string (get v "dishName"),
        get v "recipe", get v "nutrition",
        as_string (get v "healthierVariation"),
        as_optional_string (get v "friendlyAdvice") with
  | Some food, Some dish, Some (JObject r), Some (JObject n), Some healthier, Some advice =>
      match as_string_array (lookup "ingredients" r), as_string_array (lookup "steps" r),
            as_string (lookup "calories" n), as_string (lookup "protein" n),
            as_string (lookup "carbs" n), as_string (lookup "fat" n) with
      | Some ing, Some st, Some cal, Some pro, Some car, Some f =>
          Some (mkFoodAnalysis food dish ing st cal pro car f healthier advice)
      | _, _, _, _, _, _ => None
      end
  | _, _, _, _, _, _ => None
  end.

(** What React puts on the page for a value used as a child. *)
Inductive Atom : Type :=
| Text (s : string)
| Number (lexeme : string).

(** A value as a child, [{value}]: a string or a number is printed, [null]
    and the booleans print nothing, an array prints its items, and an object
    is refused ("Objects are not valid as a React child"): [None]. *)
Fixpoint child (v : JSON) : option (list Atom) :=
  match v with
  | JNull => Some []
  | JBool _ => Some []
  | JNumber lexeme => Some [Number lexeme]
  | JString s => Some [Text s]
  | JArray items =>
      (fix all (l : list JSON) : option (list Atom) :=
         match l with
         | [] => Some []
         | x :: rest =>
             match child x, all rest with
             | Some a, Some b => Some (a ++ b)%list
             | _, _ => None
             end
         end) items
  | JObject _ => None
  end.

(** A member that may be [undefined], as a child. *)
Definition child_of (x : option JSON) : option (list Atom) :=
  match x with
  | None => Some []
  | Some v => child v
  end.

(** [x.key] where [x] may be [undefined]: reading a member of [undefined]
    or [null] throws a [TypeError] ([None]); any other value answers, with
    [undefined] when it has no such member. *)
Definition member (x : option JSON) (key : string) : option (option JSON) :=
  match x with
  | None => None
  | Some JNull => None
  | Some v => Some (get v key)
  end.

(** [x.map((item, i) => <li key={i}>{item}</li>)]: only an array has a
    [map] to call; the result is one list item for each element. *)
Fixpoint list_items (items : list JSON) : option (list (list Atom)) :=
  match items with
  | [] => Some []
  | x :: rest =>
      match child x, list_items rest with
      | Some a, Some l => Some (a :: l)
      | _, _ => None
      end
  end.

Definition map_li (x : option JSON) : option (list (list Atom)) :=
  match x with
  | Some (JArray items) => list_items items
  | _ => None
  end.

(** The last slot of the block, [{analysis.friendlyAdvice && (...)}]: the
    tip with the advice as its text, or the falsy advice itself as a child. *)
Inductive TipSlot : Type :=
| Tip (advice : list Atom)
| NoTip (printed : list Atom).

(** The block rendered for a food analysis. *)
Record Block : Type := mkBlock {
  heading : list Atom;
  ingredient_items : list (list Atom);
  step_items : list (list Atom);
  calories_cell : list Atom;
  protein_cell : list Atom;
  carbs_cell : list Atom;
  fat_cell : list Atom;
  healthier : list Atom;
  tip : TipSlot
}.

Definition bind {A B : Type} (x : option A) (k : A -> option B) : option B :=
  match x with
  | Some a => k a
  | None => None
  end.

(** The JSX of the branch [analysis && analysis.isFood]: [None] when
    evaluating or rendering it throws. *)
Definition renderResult (analysis : JSON) : option Block :=
  bind (child_of (get analysis "dishName")) (fun h =>
  bind (bind (member (get analysis "recipe") "ingredients") map_li) (fun ing =>
  bind (bind (member (get analysis "recipe") "steps") map_li) (fun st =>
  bind (bind (member (get analysis "nutrition") "calories") child_of) (fun cal =>
  bind (bind (member (get analysis "nutrition") "protein") child_of) (fun pro =>
  bind (bind (member (get analysis "nutrition") "carbs") child_of) (fun car =>
  bind (bind (member (get analysis "nutrition") "fat") child_of) (fun f =>
  bind (child_of (get analysis "healthierVariation")) (fun hv =>
  bind (child_of (get analysis "friendlyAdvice")) (fun adv =>
  Some (mkBlock h ing st cal pro car f hv
          (if truthy_opt (get analysis "friendlyAdvice") then Tip adv else NoTip adv))))))))))).

(** The block of a value of type [FoodAnalysis]. *)
Definition block_of (a : FoodAnalysis) : Block :=
  {| heading := [Text (dishName a)];
     ingredient_items := map (fun s => [Text s]) (ingredients a);
     step_items := map (fun s => [Text s]) (steps a);
     calories_cell := [Text (calories a)];
     protein_cell := [Text (protein a)];
     carbs_cell := [Text (carbs a)];
     fat_cell := [Text (fat a)];
     healthier := [Text (healthierVariation a)];
     tip := match friendlyAdvice a with
            | Some s => if truthy_string s then Tip [Text s] else NoTip [Text s]
            | None => NoTip []
            end |}.

End Result.

(* ------------------------------------------------------------------------- *)
(** ** App.tsx *)
(* ------------------------------------------------------------------------- *)

Module App.
Import JS Service.

(** The five [useState] cells.  [analysis] holds the parsed value, [JNull]
    being its [null]; [imageUrl] is [null] or an object URL, which is never
    the empty string. *)
Record State : Type := mkState {
  imageFile : option File;
  analysis : JSON;
  isLoading : bool;
  error : option string;
  imageUrl : option ObjectURL
}.

Definition initial : State :=
  {| imageFile := None; analysis := JNull; isLoading := false;
     error := None; imageUrl := None |}.

Definition setImageFile (v : option File) (s : State) : State :=
  {| imageFile := v; analysis := analysis s; isLoading := isLoading s;
     error := error s; imageUrl := imageUrl s |}.
Definition setAnalysis (v : JSON) (s : State) : State :=
  {| imageFile := imageFile s; analysis := v; isLoading := isLoading s;
     error := error s; imageUrl := imageUrl s |}.
Definition setIsLoading (v : bool) (s : State) : State :=
  {| imageFile := imageFile s; analysis := analysis s; isLoading := v;
     error := error s; imageUrl := imageUrl s |}.
Definition setError (v : option string) (s : State) : State :=
  {| imageFile := imageFile s; analysis := analysis s; isLoading := isLoading s;
     error := v; imageUrl := imageUrl s |}.
Definition setImageUrl (v : option ObjectURL) (s : State) : State :=
  {| imageFile := imageFile s; analysis := analysis s; isLoading := isLoading s;
     error := error s; imageUrl := v |}.

(** [performAnalysis] up to its [await]. *)
Definition performAnalysis_begin (s : State) : State :=
  setAnalysis JNull (setError None (setIsLoading true s)).

(** [err instanceof Error ? err.message : 'An unknown error occurred.'] *)
Definition errorMessage (err : Thrown) : string :=
  match err with
  | ErrorObj message => message
  | NotAnError => "An unknown error occurred."
  end.

(** [performAnalysis] from the completion of the awaited call: the [try]
    continuation or the [catch] clause, then [finally]. *)
Definition performAnalysis_resume (outcome : Promise JSON) (s : State) : State :=
  setIsLoading false
    match outcome with
    | Resolved result => setAnalysis result s
    | Rejected err =>
        setError (Some ("Failed to analyze the image. " ++ errorMessage err)) s
    end.

Definition handleFileSelect (files : option (list File)) (s : State) : State :=
  match files with
  | Some (file0 :: _) => setImageFile (Some file0) (setAnalysis JNull (setError None s))
  | _ => s
  end.

Definition handleReset (s : State) : State :=
  setIsLoading false
    (setError None (setAnalysis JNull (setImageUrl None (setImageFile None s)))).

(** What the analysis column shows. *)
Inductive View : Type :=
| StartView
| LoadingView
| ErrorView (message : string)
| NonFoodView
| ResultView (result : JSON).

Definition when (c : bool) (v : View) : list View := if c then [v] else [].

(** [renderContent]: the start screen, or the image with every block of the
    analysis column whose condition holds.  (For an analysis that is a falsy
    number React prints the number; that text is none of the views.) *)
Definition renderContent (s : State) : list View :=
  match imageFile s, imageUrl s with
  | Some _, Some _ =>
      (when (isLoading s) LoadingView
       ++ match error s with
          | Some message => when (truthy_string message) (ErrorView message)
          | None => []
          end
       ++ when (truthy (analysis s) && negb (truthy_opt (get (analysis s) "isFood")))
               NonFoodView
       ++ when (truthy (analysis s) && truthy_opt (get (analysis s) "isFood"))
               (ResultView (analysis s)))%list
  | _, _ => [StartView]
  end.

(** Rendering throws: a result block is on the page and the JSX of it cannot
    be evaluated or rendered. *)
Definition throws (s : State) : bool :=
  existsb (fun v => match v with
                    | ResultView r =>
                        match Result.renderResult r with
                        | Some _ => false
                        | None => true
                        end
                    | _ => false
                    end)
          (renderContent s).

(** The page renders: no result block on it throws. *)
Definition renders (views : list View) : Prop :=
  forall r, In (ResultView r) views -> Result.renderResult r <> None.

(** The analysis column can be rendered for the analysis [v]: either no
    result block is asked for, or the result block renders. *)
Definition result_renders (v : JSON) : bool :=
  negb (truthy v && truthy_opt (get v "isFood"))
  || match Result.renderResult v with Some _ => true | None => false end.

Definition outcome_renders (p : Promise JSON) : bool :=
  match p with
  | Resolved v => result_renders v
  | Rejected _ => true
  end.

(** The component instance and what it holds outside its state: the cleanup
    function of the effect that ran last (a closure over its [url]), the
    calls of [analyzeFoodImage] that have not completed, the object heap and
    the registry of object URLs with the log of [revokeObjectURL] calls. *)
Record World : Type := mkWorld {
  ui : State;
  mounted : bool;
  cleanup : option ObjectURL;
  inflight : list (nat * File);
  next_call : nat;
  heap : nat;
  next_url : ObjectURL;
  live : list ObjectURL;
  revoked : list ObjectURL
}.

Definition mount : World :=
  {| ui := initial; mounted := true; cleanup := None; inflight := [];
     next_call := 0; heap := 0; next_url := 0; live := []; revoked := [] |}.

Definition set_ui (s : State) (w : World) : World :=
  {| ui := s; mounted := mounted w; cleanup := cleanup w; inflight := inflight w;
     next_call := next_call w; heap := heap w; next_url := next_url w;
     live := live w; revoked := revoked w |}.

Definition set_heap (h : nat) (w : World) : World :=
  {| ui := ui w; mounted := mounted w; cleanup := cleanup w; inflight := inflight w;
     next_call := next_call w; heap := h; next_url := next_url w;
     live := live w; revoked := revoked w |}.

Definition set_mounted (m : bool) (w : World) : World :=
  {| ui := ui w; mounted := m; cleanup := cleanup w; inflight := inflight w;
     next_call := next_call w; heap := heap w; next_url := next_url w;
     live := live w; revoked := revoked w |}.

Definition set_inflight (l : list (nat * File)) (w : World) : World :=
  {| ui := ui w; mounted := mounted w; cleanup := cleanup w; inflight := l;
     next_call := next_call w; heap := heap w; next_url := next_url w;
     live := live w; revoked := revoked w |}.

(** [URL.revokeObjectURL(url)] *)
Definition revokeObjectURL (url : ObjectURL) (w : World) : World :=
  {| ui := ui w; mounted := mounted w; cleanup := cleanup w; inflight := inflight w;
     next_call := next_call w; heap := heap w; next_url := next_url w;
     live := List.remove Nat.eq_dec url (live w); revoked := revoked w ++ [url] |}.

(** Running the cleanup function the last effect returned, if it returned
    one. *)
Definition run_cleanup (w : World) : World :=
  match cleanup w with
  | Some url =>
      let w' := revokeObjectURL url w in
      {| ui := ui w'; mounted := mounted w'; cleanup := None; inflight := inflight w';
         next_call := next_call w'; heap := heap w'; next_url := next_url w';
         live := live w'; revoked := revoked w' |}
  | None => w
  end.

(** The body of the [useEffect]: with an image, create the preview URL,
    start [performAnalysis] (which runs to its [await], leaving the call in
    flight) and return the cleanup function. *)
Definition effect (w : World) : World :=
  match imageFile (ui w) with
  | None =>
      {| ui := ui w; mounted := mounted w; cleanup := None; inflight := inflight w;
         next_call := next_call w; heap := heap w; next_url := next_url w;
         live := live w; revoked := revoked w |}
  | Some file =>
      let url := next_url w in
      {| ui := performAnalysis_begin (setImageUrl (Some url) (ui w));
         mounted := mounted w;
         cleanup := Some url;
         inflight := inflight w ++ [(next_call w, file)];
         next_call := S (next_call w);
         heap := heap w;
         next_url := S url;
         live := url :: live w;
         revoked := revoked w |}
  end.

(** The re-render after a handler: when the dependency [imageFile] is not
    the object it was ([before]), the previous cleanup runs and then the
    effect. *)
Definition commit (before : option File) (w : World) : World :=
  if same_object before (imageFile (ui w)) then w
  else effect (run_cleanup w).

(** The [onClick] of "Try Again":
    [imageFile && setImageFile(new File([imageFile], imageFile.name, ...))]. *)
Definition tryAgain (w : World) : World :=
  match imageFile (ui w) with
  | Some file =>
      set_heap (S (heap w)) (set_ui (setImageFile (Some (File_copy (heap w) file)) (ui w)) w)
  | None => w
  end.

(** Objects the browser hands to a handler were allocated before the call. *)
Definition received (files : option (list File)) (w : World) : World :=
  match files with
  | Some (file0 :: _) => set_heap (Nat.max (heap w) (S (fid file0))) w
  | _ => w
  end.

Inductive Event : Type :=
| FileSelect (files : option (list File))
| Reset
| Retry
| Settle (call : nat) (env : Env)
| Unmount.

Fixpoint find_call (call : nat) (l : list (nat * File)) : option File :=
  match l with
  | [] => None
  | (c, f) :: rest => if Nat.eqb c call then Some f else find_call call rest
  end.

Fixpoint drop_call (call : nat) (l : list (nat * File)) : list (nat * File) :=
  match l with
  | [] => []
  | (c, f) :: rest => if Nat.eqb c call then rest else (c, f) :: drop_call call rest
  end.

(** One event.  [Settle call env] is the completion of the call [call] in an
    environment that behaved as [env]; when the render that follows throws,
    nothing catches the error and React removes the component, which runs
    the cleanup.  After the component is gone state updates are dropped. *)
Definition step (w : World) (e : Event) : World :=
  match e with
  | FileSelect files =>
      if mounted w
      then commit (imageFile (ui w))
                  (set_ui (handleFileSelect files (ui w)) (received files w))
      else w
  | Reset =>
      if mounted w
      then commit (imageFile (ui w)) (set_ui (handleReset (ui w)) w)
      else w
  | Retry =>
      if mounted w then commit (imageFile (ui w)) (tryAgain w) else w
  | Settle call env =>
      match find_call call (inflight w) with
      | Some file =>
          let w' := set_inflight (drop_call call (inflight w)) w in
          if mounted w
          then
            let s' := performAnalysis_resume (analyzeFoodImage env file) (ui w) in
            if throws s'
            then set_mounted false (run_cleanup (set_ui s' w'))
            else set_ui s' w'
          else w'
      | None => w
      end
  | Unmount =>
      if mounted w then set_mounted false (run_cleanup w) else w
  end.

Fixpoint run (w : World) (trace : list Event) : World :=
  match trace with
  | [] => w
  | e :: rest => run (step w e) rest
  end.


(** The events the rendered page offers: the file input lives on the start
    screen, "Upload New Photo" next to the image, "Try Again" in the error
    block; a call can complete while it is in flight. *)
Definition shows_image (s : State) : bool :=
  match imageFile s, imageUrl s with
  | Some _, Some _ => true
  | _, _ => false
  end.

Definition shows_error (s : State) : bool :=
  shows_image s && match error s with Some m => truthy_string m | None => false end.

Definition offered (w : World) (e : Event) : bool :=
  match e with
  | FileSelect _ => mounted w && negb (shows_image (ui w))
  | Reset => mounted w && shows_image (ui w)
  | Retry => mounted w && shows_error (ui w)
  | Settle call _ => match find_call call (inflight w) with Some _ => true | None => false end
  | Unmount => mounted w
  end.

(** A submission followed by the completion of its call. *)
Definition submit_and_settle (w : World) (f : File) (env : Env) : World :=
  run w [FileSelect (Some [f]); Settle (next_call w) env].

(** Every event of the trace is offered by the page at the time it happens. *)
Fixpoint feasible (w : World) (trace : list Event) : bool :=
  match trace with
  | [] => true
  | e :: rest => offered w e && feasible (step w e) rest
  end.

(** The events that start a call of [analyzeFoodImage]. *)
Definition issues_call (e : Event) : bool :=
  match e with
  | FileSelect _ | Retry => true
  | _ => false
  end.

Definition no_call_in_flight (w : World) : bool :=
  match inflight w with
  | [] => true
  | _ :: _ => false
  end.

(** A completion that succeeds delivers a truthy value. *)
Definition delivers_truthy (w : World) (e : Event) : bool :=
  match e with
  | Settle call env =>
      match find_call call (inflight w) with
      | Some f =>
          match analyzeFoodImage env f with
          | Resolved v => truthy v
          | Rejected _ => true
          end
      | None => true
      end
  | _ => true
  end.

(** Use of the page in which calls do not overlap: every event is offered,
    an image is selected or retried only when no call is in flight, and the
    results are truthy. *)
Fixpoint one_at_a_time (w : World) (trace : list Event) : bool :=
  match trace with
  | [] => true
  | e :: rest =>
      offered w e
      && (negb (issues_call e) || no_call_in_flight w)
      && delivers_truthy w e
      && one_at_a_time (step w e) rest
  end.

End App.

(* ------------------------------------------------------------------------- *)
(** ** The lifecycle vocabulary of the specification *)
(* ------------------------------------------------------------------------- *)

Module Lifecycle.
Import JS App.

(** The four lifecycle states of the specification, read off the cells of
    the component: these follow the specification's words, not a definition
    of the source, which has no such type. *)
Definition Idle (s : State) : Prop := s = initial.

Definition Loading (s : State) : Prop :=
  isLoading s = true /\ error s = None /\ analysis s = JNull.

Definition Succeeded (result : JSON) (s : State) : Prop :=
  isLoading s = false /\ error s = None /\ analysis s = result.

Definition Failed (message : string) (s : State) : Prop :=
  isLoading s = false /\ error s = Some message /\ analysis s = JNull.

(** [needle] occurs in [hay] as it is. *)
Definition contains (needle hay : string) : Prop :=
  exists before after, hay = before ++ needle ++ after.

End Lifecycle.

(* ------------------------------------------------------------------------- *)
(** ** Sample inputs *)
(* ------------------------------------------------------------------------- *)

Module Sample.
Import JS Service App.

(** Two picked files and a browser whose reader behaves as [readAsDataURL]
    and whose hosted model answers [answer]. *)
Definition pancakes : File :=
  {| fid := 0; contents := [x89; x50; x4e; x47]; name := "pancakes.png";
     type := "image/png" |}.

Definition car : File :=
  {| fid := 1; contents := [xff; xd8; xff]; name := "car.jpg"; type := "image/jpeg" |}.

Definition browser (answer : Promise GenerateContentResponse) : Env :=
  {| reader := fun f => OnLoad (readAsDataURL f); generateContent := fun _ => answer |}.

Definition replies (body : string) : Env :=
  browser (Resolved {| blockReason := None; text := Some body |}).

Definition blocks (reason body : string) : Env :=
  browser (Resolved {| blockReason := Some reason; text := Some body |}).

Definition offline : Env := browser (Rejected (ErrorObj "Failed to fetch")).

(** The hosted model answers with no text and no block reason. *)
Definition silent : Env :=
  browser (Resolved {| blockReason := None; text := None |}).

(** JSON text is written here with apostrophes where it has double quotes. *)
Fixpoint json (s : string) : string :=
  match s with
  | EmptyString => EmptyString
  | String c rest => String (if Ascii.eqb c "'" then quote else c) (json rest)
  end.

Definition pancakes_body : string :=
  json "{'isFood':true,'dishName':'Pancakes','recipe':{'ingredients':['flour','egg'],'steps':['mix','cook']},'nutrition':{'calories':'350 kcal','protein':'8g','carbs':'50g','fat':'10g'},'healthierVariation':'Use whole wheat flour.'}".

Definition not_food_body : string :=
  json "{'isFood':false,'dishName':'Not a food item','recipe':{'ingredients':[],'steps':[]},'nutrition':{'calories':'','protein':'','carbs':'','fat':''},'healthierVariation':''}".

(** A body that leaves out [healthierVariation] and the four members of
    [nutrition], and renders. *)
Definition sparse_body : string :=
  json "{'isFood':true,'dishName':'Pancakes','recipe':{'ingredients':['flour'],'steps':['mix']},'nutrition':{}}".

Definition sparse_result : JSON :=
  JObject
    [ ("isFood", JBool true);
      ("dishName", JString "Pancakes");
      ("recipe",
        JObject [ ("ingredients", JArray [JString "flour"]);
                  ("steps", JArray [JString "mix"]) ]);
      ("nutrition", JObject []) ].

(** A body that leaves out [recipe], [nutrition] and [healthierVariation]. *)
Definition partial_body : string := json "{'isFood':true,'dishName':'Pancakes'}".

Definition partial_result : JSON :=
  JObject [("isFood", JBool true); ("dishName", JString "Pancakes")].

Definition pancakes_result : JSON :=
  JObject
    [ ("isFood", JBool true);
      ("dishName", JString "Pancakes");
      ("recipe",
        JObject [ ("ingredients", JArray [JString "flour"; JString "egg"]);
                  ("steps", JArray [JString "mix"; JString "cook"]) ]);
      ("nutrition",
        JObject [ ("calories", JString "350 kcal"); ("protein", JString "8g");
                  ("carbs", JString "50g"); ("fat", JString "10g") ]);
      ("healthierVariation", JString "Use whole wheat flour.") ].

Definition not_food_result : JSON :=
  JObject
    [ ("isFood", JBool false);
      ("dishName", JString "Not a food item");
      ("recipe", JObject [("ingredients", JArray []); ("steps", JArray [])]);
      ("nutrition",
        JObject [ ("calories", JString EmptyString); ("protein", JString EmptyString);
                  ("carbs", JString EmptyString); ("fat", JString EmptyString) ]);
      ("healthierVariation", JString EmptyString) ].

(** The pancakes are selected, the page is reset while their call is in
    flight, the car is selected; the call of the car completes first, the
    call of the pancakes last. *)
Definition stale_last : list Event :=
  [ FileSelect (Some [pancakes]); Reset; FileSelect (Some [car]);
    Settle 1 (replies not_food_body);
    Settle 0 (replies pancakes_body) ].

Definition car_alone : list Event :=
  [ FileSelect (Some [car]); Settle 0 (replies not_food_body) ].

(** The failed call of the pancakes completes while the car is loading, then
    the call of the car succeeds. *)
Definition stale_failure : list Event :=
  [ FileSelect (Some [pancakes]); Reset; FileSelect (Some [car]);
    Settle 0 offline;
    Settle 1 (replies pancakes_body) ].

Definition null_body : list Event :=
  [ FileSelect (Some [pancakes]); Settle 0 (replies "null") ].

End Sample.

Import JS Service App Lifecycle.
Local Open Scope list_scope.

(* ------------------------------------------------------------------------- *)
(** ** Invariants of the controller *)
(* ------------------------------------------------------------------------- *)

(** What every sequence of events preserves: call numbers and object
    identities are fresh, the only live object URL is the one the pending
    cleanup will revoke, and no URL is revoked twice. *)
Record wf_core (w : World) : Prop := mk_wf {
  wf_calls : Forall (fun c => fst c < next_call w) (inflight w);
  wf_heap : forall f, imageFile (ui w) = Some f -> fid f < heap w;
  wf_live : live w = match cleanup w with Some u => [u] | None => [] end;
  wf_cleanup : forall u, cleanup w = Some u -> u < next_url w /\ ~ In u (revoked w);
  wf_revoked : Forall (fun u => u < next_url w) (revoked w);
  wf_nodup : NoDup (revoked w)
}.

Definition wf (w : World) : Prop :=
  wf_core w /\ (imageFile (ui w) = None -> cleanup w = None).

(** The shape of the cells while calls do not overlap. *)
Definition orderly (w : World) : Prop :=
  (imageFile (ui w) = None /\ imageUrl (ui w) = None)
  \/ (exists f u,
        imageFile (ui w) = Some f /\ imageUrl (ui w) = Some u
        /\ ((isLoading (ui w) = true /\ error (ui w) = None
             /\ analysis (ui w) = JNull /\ exists c, inflight w = [c])
            \/ (isLoading (ui w) = false /\ inflight w = []
                /\ ((exists m, error (ui w) = Some m /\ truthy_string m = true
                               /\ analysis (ui w) = JNull)
                    \/ (error (ui w) = None /\ truthy (analysis (ui w)) = true))))).

(** The two outcomes write the same cell. *)
Definition same_kind (p q : Promise JSON) : Prop :=
  match p, q with
  | Resolved _, Resolved _ => True
  | Rejected _, Rejected _ => True
  | _, _ => False
  end.

(** The cells between events: an error is always the prefixed message, and
    while the component is mounted the preview cell names the URL the
    pending cleanup will revoke, is set exactly when an image is, and the
    loading flag is up only while a call is in flight. *)
Definition tidy (w : World) : Prop :=
  (forall m, error (ui w) = Some m ->
             exists cause, m = ("Failed to analyze the image. " ++ cause)%string)
  /\ (mounted w = true ->
      imageUrl (ui w) = cleanup w
      /\ (imageFile (ui w) = None <-> imageUrl (ui w) = None)
      /\ (isLoading (ui w) = true -> inflight w <> [])).

(** The completions of the calls [calls], in that order. *)
Definition completions (calls : list (nat * Env)) : list Event :=
  map (fun c => Settle (fst c) (snd c)) calls.


(* ------------------------------------------------------------------------- *)
(** ** The platform on known inputs *)
(* ------------------------------------------------------------------------- *)

(** The test vectors of RFC 4648 for "f", "fo", "foo" and "foobar". *)
Example base64_rfc4648_vectors :
  base64_encode [x66] = "Zg=="
  /\ base64_encode [x66; x6f] = "Zm8="
  /\ base64_encode [x66; x6f; x6f] = "Zm9v"
  /\ base64_encode [x66; x6f; x6f; x62; x61; x72] = "Zm9vYmFy"
  /\ base64_decode "Zm9vYmE=" = Some [x66; x6f; x6f; x62; x61]
  /\ base64_decode "Zm9vYmE" = None.
Proof. repeat split; reflexivity. Qed.

Example JSON_parse_accepts :
  JSON_parse " [1, -0.5e+10, null, true, {}] "
  = Some (JArray [JNumber "1"; JNumber "-0.5e+10"; JNull; JBool true; JObject []])
  /\ JSON_parse (Sample.json "{'a':{'b':['\u0041\n']},'a':2}")
     = Some (JObject [("a", JObject [("b", JArray [JString (String "A" (String (chr 10) EmptyString))])]);
                      ("a", JNumber "2")])
  /\ get (JObject [("a", JNull); ("a", JNumber "2")]) "a" = Some (JNumber "2").
Proof. repeat split; reflexivity. Qed.

Example JSON_parse_rejects :
  JSON_parse EmptyString = None
  /\ JSON_parse "[1,]" = None
  /\ JSON_parse "01" = None
  /\ JSON_parse "1." = None
  /\ JSON_parse "{'a':1}" = None
  /\ JSON_parse "nul" = None
  /\ JSON_parse "{} x" = None
  /\ JSON_parse (String (chr 11) "{}") = None.
Proof. repeat split; reflexivity. Qed.

(** [trim] removes more than JSON white space: a vertical tab before the
    body is gone by the time [JSON.parse] sees it. *)
Example trim_then_parse :
  trim (String (chr 11) (String (chr 10) "{} ")) = "{}"
  /\ JSON_parse (trim (String (chr 11) "{}")) = Some (JObject []).
Proof. split; reflexivity. Qed.

Example data_url_pieces :
  readAsDataURL Sample.pancakes = "data:image/png;base64,iVBORw=="
  /\ split "," "data:image/png;base64,iVBORw==" = ["data:image/png;base64"; "iVBORw=="]
  /\ match_colon_semicolon "data:image/png;base64" = Some "image/png"
  /\ match_colon_semicolon "data:;base64" = Some EmptyString
  /\ match_colon_semicolon "data" = None
  /\ split "," EmptyString = [EmptyString].
Proof. repeat split; reflexivity. Qed.

(* ------------------------------------------------------------------------- *)
(** ** [JSON.parse]: no text fails to parse for lack of fuel *)
(* ------------------------------------------------------------------------- *)

Section ParserFuel.

Lemma skip_ws_length (s : string) : String.length (skip_ws s) <= String.length s.
Proof.
  induction s as [|c s IH]; simpl; [lia|].
  destruct (is_json_ws c); simpl; lia.
Qed.

Lemma strip_length (p s r : string) :
  strip p s = Some r -> String.length s = String.length p + String.length r.
Proof.
  revert s. induction p as [|a p IH]; intros s H; simpl in *.
  - injection H as <-. reflexivity.
  - destruct s as [|b s]; [discriminate|].
    destruct (Ascii.eqb a b); [|discriminate]. simpl. rewrite (IH s H). reflexivity.
Qed.

Lemma prepend_some (p : string) (o : option (string * string)) (x r : string) :
  prepend p o = Some (x, r) -> exists y, o = Some (y, r) /\ x = (p ++ y)%string.
Proof.
  destruct o as [[y r']|]; simpl; [|discriminate].
  intros H. injection H as <- <-. eauto.
Qed.

Lemma parse_chars_length (s x r : string) :
  parse_chars s = Some (x, r) -> String.length r < String.length s.
Proof.
  remember (String.length s) as n eqn:Hn.
  assert (Hle : String.length s <= n) by lia. clear Hn.
  revert s x r Hle. induction n as [|n IH]; intros s x r Hle H.
  - destruct s; [discriminate | simpl in Hle; lia].
  - destruct s as [|c rest]; [discriminate|]. simpl in Hle.
    cbn [parse_chars] in H.
    destruct (Ascii.eqb c quote).
    + injection H as <- <-. simpl. lia.
    + destruct (Ascii.eqb c "\").
      * destruct rest as [|e rest1]; [discriminate|]. simpl in Hle.
        destruct (simple_escape e).
        -- apply prepend_some in H as (y & H & _).
           apply IH in H; [|lia]. simpl. lia.
        -- destruct (Ascii.eqb e "u"); [|discriminate].
           destruct rest1 as [|h1 [|h2 [|h3 [|h4 rest2]]]]; try discriminate.
           destruct (hex4 h1 h2 h3 h4) as [n0|]; [|discriminate]. simpl in Hle.
           assert (Hlone : forall r0, prepend (utf8 n0) (parse_chars rest2) = Some (x, r0) ->
                                      String.length r0 < n)
             by (intros r0 H0; apply prepend_some in H0 as (y & H0 & _);
                 apply IH in H0; [exact H0 | lia]).
           destruct rest2 as [|b [|u [|k1 [|k2 [|k3 [|k4 rest3]]]]]];
             try (apply Hlone in H; lia).
           destruct (hex4 k1 k2 k3 k4) as [low|]; [|apply Hlone in H; lia].
           destruct (Ascii.eqb b "\" && Ascii.eqb u "u"
                     && is_high_surrogate n0 && is_low_surrogate low);
             [|apply Hlone in H; lia].
           apply prepend_some in H as (y & H & _). cbn [String.length] in Hle.
           apply IH in H; lia.
      * destruct (code c <? 32)%nat; [discriminate|].
        apply prepend_some in H as (y & H & _).
        apply IH in H; [|lia]. simpl. lia.
Qed.

Lemma digits_length (s d r : string) :
  digits s = (d, r) -> String.length r <= String.length s.
Proof.
  revert d r. induction s as [|c s IH]; intros d r H; simpl in H.
  - injection H as <- <-. simpl. lia.
  - destruct (is_digit c).
    + destruct (digits s) as [d' r'] eqn:E. injection H as <- <-.
      specialize (IH _ _ eq_refl). simpl. lia.
    + injection H as <- <-. simpl. lia.
Qed.

Lemma digits1_length (s d r : string) :
  digits1 s = Some (d, r) -> String.length r <= String.length s.
Proof.
  unfold digits1. destruct (digits s) as [d' r'] eqn:E.
  destruct d'; [discriminate|]. intros H. injection H as <- <-.
  eapply digits_length, E.
Qed.

Lemma parse_number_length (s l r : string) :
  parse_number s = Some (l, r) -> String.length r < String.length s.
Proof.
  unfold parse_number.
  set (p := match s with
            | String c rest => if Ascii.eqb c "-" then ("-", rest) else (EmptyString, s)
            | EmptyString => (EmptyString, s)
            end).
  assert (Hp : String.length (snd p) <= String.length s).
  { subst p. destruct s as [|c rest]; simpl; [lia|]. destruct (Ascii.eqb c "-"); simpl; lia. }
  destruct p as [sign s0]. simpl in Hp.
  destruct (parse_int s0) as [[i s1]|] eqn:Ei; [|discriminate].
  assert (H1 : String.length s1 < String.length s0).
  { unfold parse_int in Ei. destruct s0 as [|c rest]; [discriminate|].
    destruct (Ascii.eqb c "0").
    - injection Ei as <- <-. simpl. lia.
    - destruct (is_digit c); [|discriminate].
      destruct (digits rest) as [d r'] eqn:E. injection Ei as <- <-.
      apply digits_length in E. simpl. lia. }
  destruct (parse_frac s1) as [[f s2]|] eqn:Ef; [|discriminate].
  assert (H2 : String.length s2 <= String.length s1).
  { unfold parse_frac in Ef. destruct s1 as [|c rest].
    - injection Ef as <- <-. lia.
    - destruct (Ascii.eqb c ".").
      + apply prepend_some in Ef as (y & Ef & _). apply digits1_length in Ef. simpl. lia.
      + injection Ef as <- <-. lia. }
  destruct (parse_exp s2) as [[e s3]|] eqn:Ee; [|discriminate].
  assert (H3 : String.length s3 <= String.length s2).
  { unfold parse_exp in Ee. destruct s2 as [|c rest].
    - injection Ee as <- <-. lia.
    - destruct (Ascii.eqb c "e" || Ascii.eqb c "E").
      + destruct rest as [|sg rest1]; [discriminate|].
        destruct (Ascii.eqb sg "+" || Ascii.eqb sg "-");
          apply prepend_some in Ee as (y & Ee & _); apply digits1_length in Ee;
          simpl in *; lia.
      + injection Ee as <- <-. lia. }
  intros H. injection H as <- <-. lia.
Qed.

Local Arguments strip : simpl never.
Local Arguments parse_chars : simpl never.
Local Arguments parse_number : simpl never.
Local Arguments skip_ws : simpl never.
Local Arguments Ascii.eqb : simpl never.

Ltac use_equations :=
  repeat match goal with
         | E : ?t = _ |- context [?t] => rewrite E
         | Hall : forall m, _ -> _ = Some _ |- _ =>
             rewrite Hall by (cbn [String.length] in *; lia)
         end.

Ltac fuel_done :=
  split;
  [ cbn [String.length] in *; lia
  | let m := fresh "m" in
    let Hm := fresh "Hm" in
    intros [|m] Hm;
    [ cbn [String.length] in *; lia | simpl; use_equations; reflexivity ] ].

Lemma parse_fuel (n : nat) :
  enough_fuel parse_value n /\ enough_fuel parse_elements n
  /\ enough_fuel parse_members n.
Proof.
  induction n as [|n (IHv & IHe & IHm)].
  { split; [|split]; intros s x r H; discriminate H. }
  split; [|split]; intros s x r H; simpl in H; pose proof (skip_ws_length s) as Hs.
  - (* a value *)
    destruct (skip_ws s) as [|c rest] eqn:Es; [discriminate|].
    destruct (Ascii.eqb c "{") eqn:Eobj.
    { pose proof (skip_ws_length rest) as Hs1.
      destruct (skip_ws rest) as [|c1 rest1] eqn:E1; [discriminate|].
      destruct (Ascii.eqb c1 "}") eqn:Ecl.
      - injection H as <- <-. fuel_done.
      - destruct (parse_members n (String c1 rest1)) as [[ms r']|] eqn:Em; [|discriminate].
        injection H as <- <-. destruct (IHm _ _ _ Em) as [Hlt Hall]. fuel_done. }
    destruct (Ascii.eqb c "[") eqn:Earr.
    { pose proof (skip_ws_length rest) as Hs1.
      destruct (skip_ws rest) as [|c1 rest1] eqn:E1; [discriminate|].
      destruct (Ascii.eqb c1 "]") eqn:Ecl.
      - injection H as <- <-. fuel_done.
      - destruct (parse_elements n (String c1 rest1)) as [[vs r']|] eqn:Em; [|discriminate].
        injection H as <- <-. destruct (IHe _ _ _ Em) as [Hlt Hall]. fuel_done. }
    destruct (Ascii.eqb c quote) eqn:Estr.
    { destruct (parse_chars rest) as [[str r']|] eqn:Ec; [|discriminate].
      injection H as <- <-. pose proof (parse_chars_length _ _ _ Ec). fuel_done. }
    destruct (strip "null" (String c rest)) as [r0|] eqn:En.
    { injection H as <- <-. apply strip_length in En as Hl. fuel_done. }
    destruct (strip "true" (String c rest)) as [r0|] eqn:Et.
    { injection H as <- <-. apply strip_length in Et as Hl. fuel_done. }
    destruct (strip "false" (String c rest)) as [r0|] eqn:Ef.
    { injection H as <- <-. apply strip_length in Ef as Hl. fuel_done. }
    destruct (parse_number (String c rest)) as [[lexeme r0]|] eqn:Enum; [|discriminate].
    injection H as <- <-. apply parse_number_length in Enum as Hl. fuel_done.
  - (* the elements of an array *)
    destruct (parse_value n s) as [[v r1]|] eqn:Ev; [|discriminate].
    destruct (IHv _ _ _ Ev) as [Hlt Hall].
    pose proof (skip_ws_length r1) as Hs1.
    destruct (skip_ws r1) as [|c rest] eqn:E1; [discriminate|].
    destruct (Ascii.eqb c ",") eqn:Ecomma.
    + destruct (parse_elements n rest) as [[vs r']|] eqn:Ee; [|discriminate].
      injection H as <- <-. destruct (IHe _ _ _ Ee) as [Hlt' Hall']. fuel_done.
    + destruct (Ascii.eqb c "]") eqn:Ecl; [|discriminate].
      injection H as <- <-. fuel_done.
  - (* the members of an object *)
    destruct (skip_ws s) as [|q rest] eqn:Es; [discriminate|].
    destruct (Ascii.eqb q quote) eqn:Eq; [|discriminate].
    destruct (parse_chars rest) as [[key r0]|] eqn:Ek; [|discriminate].
    pose proof (parse_chars_length _ _ _ Ek) as Hk.
    pose proof (skip_ws_length r0) as Hs0.
    destruct (skip_ws r0) as [|c0 r1] eqn:E0; [discriminate|].
    destruct (Ascii.eqb c0 ":") eqn:Ecolon; [|discriminate].
    destruct (parse_value n r1) as [[v r2]|] eqn:Ev; [|discriminate].
    destruct (IHv _ _ _ Ev) as [Hlt Hall].
    pose proof (skip_ws_length r2) as Hs2.
    destruct (skip_ws r2) as [|c rest'] eqn:E2; [discriminate|].
    destruct (Ascii.eqb c ",") eqn:Ecomma.
    + destruct (parse_members n rest') as [[ms r']|] eqn:Em; [|discriminate].
      injection H as <- <-. destruct (IHm _ _ _ Em) as [Hlt' Hall']. fuel_done.
    + destruct (Ascii.eqb c "}") eqn:Ecl; [|discriminate].
      injection H as <- <-. fuel_done.
Qed.

(** The fuel [JSON_parse] passes is as good as any. *)
Lemma JSON_parse_fuel (n : nat) (text : string) (v : JSON) (rest : string) :
  parse_value n text = Some (v, rest) ->
  parse_value (S (String.length text)) text = Some (v, rest).
Proof.
  intros H. destruct (proj1 (parse_fuel n) _ _ _ H) as [_ Hall]. apply Hall. lia.
Qed.

Lemma JSON_parse_any_fuel (n : nat) (text : string) (v : JSON) (rest : string) :
  parse_value n text = Some (v, rest) -> skip_ws rest = EmptyString ->
  JSON_parse text = Some v.
Proof.
  intros H Hrest. unfold JSON_parse. rewrite (JSON_parse_fuel n text v rest H), Hrest.
  reflexivity.
Qed.

End ParserFuel.

(* ------------------------------------------------------------------------- *)
(** ** Worlds that arise from mounting the component *)
(* ------------------------------------------------------------------------- *)

Lemma same_object_refl (a : option File) : same_object a a = true.
Proof. destruct a; simpl; auto using Nat.eqb_refl. Qed.

Lemma set_ui_same (w : World) : set_ui (ui w) w = w.
Proof. destruct w; reflexivity. Qed.

Lemma wf_mount : wf mount.
Proof.
  split; [constructor|]; simpl; auto; try constructor; try discriminate.
Qed.

Lemma wf_run_cleanup (w : World) :
  wf_core w ->
  live (run_cleanup w) = [] /\ cleanup (run_cleanup w) = None
  /\ NoDup (revoked (run_cleanup w))
  /\ Forall (fun u => u < next_url w) (revoked (run_cleanup w))
  /\ revoked (run_cleanup w) = revoked w ++ live w.
Proof.
  intros [_ _ Hlive Hcl Hrev Hnd]. unfold run_cleanup.
  destruct (cleanup w) as [u|] eqn:E.
  - destruct (Hcl u eq_refl) as [Hlt Hnot]. simpl. rewrite Hlive. simpl.
    destruct (Nat.eq_dec u u) as [_|N]; [|congruence].
    repeat split; auto.
    + apply NoDup_app; [assumption | repeat constructor; intros [] | ].
      intros x Hx [Hy|[]]. subst. contradiction.
    + apply Forall_app. split; auto.
  - rewrite Hlive, app_nil_r. repeat split; auto.
Qed.

Lemma run_cleanup_frame (w : World) :
  ui (run_cleanup w) = ui w /\ mounted (run_cleanup w) = mounted w
  /\ inflight (run_cleanup w) = inflight w /\ next_call (run_cleanup w) = next_call w
  /\ heap (run_cleanup w) = heap w /\ next_url (run_cleanup w) = next_url w.
Proof. unfold run_cleanup. destruct (cleanup w); simpl; repeat split. Qed.

Lemma wf_effect_after_cleanup (w : World) :
  wf_core w -> wf (effect (run_cleanup w)).
Proof.
  intros H.
  destruct (wf_run_cleanup w H) as (Hl & Hc & Hnd & Hrv & _).
  destruct (run_cleanup_frame w) as (Hui & _ & Hin & Hnc & Hhp & Hnu).
  destruct H as [Hcalls Hheap _ _ _ _].
  unfold effect. rewrite Hui.
  destruct (imageFile (ui w)) as [file|] eqn:Ef.
  - split; [constructor|]; simpl; try discriminate.
    + rewrite Hin, Hnc. apply Forall_app. split.
      * eapply Forall_impl; [|exact Hcalls]. simpl. intros; lia.
      * repeat constructor.
    + rewrite Hhp. intros f Hf. apply Hheap. congruence.
    + rewrite Hl. reflexivity.
    + intros u Hu. injection Hu as <-. split; [lia|].
      intros Hin'. rewrite Forall_forall in Hrv. apply Hrv in Hin'. lia.
    + eapply Forall_impl; [|exact Hrv]. simpl. intros; lia.
    + assumption.
    + rewrite Ef. discriminate.
  - split; [constructor|]; simpl; auto; try discriminate.
    + rewrite Hin, Hnc. assumption.
    + rewrite Ef. discriminate.
    + rewrite Hnu. assumption.
Qed.

Lemma wf_commit (before : option File) (w : World) :
  wf_core w ->
  (same_object before (imageFile (ui w)) = true ->
   imageFile (ui w) = None -> cleanup w = None) ->
  wf (commit before w).
Proof.
  intros H Hidle. unfold commit.
  destruct (same_object before (imageFile (ui w))) eqn:E.
  - split; auto.
  - apply wf_effect_after_cleanup. assumption.
Qed.

Lemma resume_keeps_image (o : Promise JSON) (s : State) :
  imageFile (performAnalysis_resume o s) = imageFile s
  /\ imageUrl (performAnalysis_resume o s) = imageUrl s.
Proof. destruct o; split; reflexivity. Qed.

Lemma wf_unmounted (w : World) : wf_core w -> wf (set_mounted false (run_cleanup w)).
Proof.
  intros H. pose proof H as [Hcalls Hheap Hlive Hcl Hrev Hnd].
  destruct (wf_run_cleanup w H) as (Hl & Hc & Hnd' & Hrv & _).
  destruct (run_cleanup_frame w) as (Hui & _ & Hin & Hnc & Hhp & Hnu).
  split; [constructor|]; simpl; auto.
  - rewrite Hin, Hnc. assumption.
  - rewrite Hui, Hhp. assumption.
  - rewrite Hl, Hc. reflexivity.
  - rewrite Hc. discriminate.
  - rewrite Hnu. assumption.
Qed.

Lemma wf_step (w : World) (e : Event) : wf w -> wf (step w e).
Proof.
  intros [H Hidle]. pose proof H as [Hcalls Hheap Hlive Hcl Hrev Hnd].
  destruct e as [files| | |call env|]; simpl.
  - destruct (mounted w); [|split; assumption].
    apply wf_commit.
    + destruct files as [[|file0 rest]|]; simpl;
        try (rewrite set_ui_same; assumption).
      constructor; simpl; auto.
      intros f Hf. injection Hf as <-. lia.
    + intros Hsame Hnone. destruct files as [[|file0 rest]|]; simpl in *;
        try discriminate; auto.
  - destruct (mounted w); [|split; assumption].
    apply wf_commit.
    + constructor; simpl; auto. discriminate.
    + simpl. intros Hsame _. destruct (imageFile (ui w)); [discriminate|]. auto.
  - destruct (mounted w); [|split; assumption].
    apply wf_commit.
    + unfold tryAgain. destruct (imageFile (ui w)) as [file|] eqn:Ef; [|assumption].
      constructor; simpl; auto.
      intros f Hf. injection Hf as <-. simpl. lia.
    + unfold tryAgain. destruct (imageFile (ui w)) as [file|] eqn:Ef; simpl.
      * discriminate.
      * rewrite Ef. auto.
  - destruct (find_call call (inflight w)) as [file|] eqn:Ec; [|split; assumption].
    assert (Hdrop : Forall (fun c => fst c < next_call w) (drop_call call (inflight w))).
    { clear -Hcalls. induction Hcalls as [|[c f] l Hc Hl IH]; simpl; [constructor|].
      destruct (Nat.eqb c call); [assumption|]. constructor; assumption. }
    destruct (mounted w); [|split; [constructor|]; simpl; auto].
    destruct (resume_keeps_image (analyzeFoodImage env file) (ui w)) as [Hsame _].
    set (s' := performAnalysis_resume (analyzeFoodImage env file) (ui w)) in *.
    assert (Hw : wf (set_ui s' (set_inflight (drop_call call (inflight w)) w))).
    { split; [constructor|]; cbn [ui set_ui set_inflight inflight next_call heap live
        cleanup revoked next_url]; auto; rewrite Hsame; assumption. }
    destruct (throws s'); [apply wf_unmounted, Hw | exact Hw].
  - destruct (mounted w); [|split; assumption].
    apply wf_unmounted, H.
Qed.

Lemma wf_run (trace : list Event) (w : World) : wf w -> wf (run w trace).
Proof.
  revert w. induction trace as [|e trace IH]; simpl; intros w H; [assumption|].
  apply IH, wf_step, H.
Qed.

Lemma wf_history (history : list Event) : wf (run mount history).
Proof. apply wf_run, wf_mount. Qed.

(* ------------------------------------------------------------------------- *)
(** ** The analysis client *)
(* ------------------------------------------------------------------------- *)

Section Client.

Variables (env : Env) (file : File) (part : Part) (response : GenerateContentResponse).
Hypothesis encoded : fileToPart env file = Resolved part.
Hypothesis answered : generateContent env (request_for part) = Resolved response.

Lemma analyze_after_response :
  analyzeFoodImage env file =
  if truthy_reason (blockReason response)
  then Rejected (ErrorObj (blocked_message (reason_text (blockReason response))))
  else match text response with
       | None => Rejected (ErrorObj no_text_message)
       | Some responseText =>
           match JSON_parse (trim responseText) with
           | Some parsedJson => Resolved parsedJson
           | None => Rejected (ErrorObj invalid_message)
           end
       end.
Proof. unfold analyzeFoodImage. rewrite encoded. simpl. rewrite answered. reflexivity. Qed.

Lemma analyze_blocked (X : string) :
  blockReason response = Some X -> truthy_string X = true ->
  analyzeFoodImage env file = Rejected (ErrorObj (blocked_message X)).
Proof.
  intros HX Ht. rewrite analyze_after_response, HX. simpl. rewrite Ht. reflexivity.
Qed.

Lemma analyze_without_text :
  truthy_reason (blockReason response) = false ->
  text response = None ->
  analyzeFoodImage env file = Rejected (ErrorObj no_text_message).
Proof. intros Hb Ht. rewrite analyze_after_response, Hb, Ht. reflexivity. Qed.

Lemma analyze_unparsable (body : string) :
  truthy_reason (blockReason response) = false ->
  text response = Some body ->
  JSON_parse (trim body) = None ->
  analyzeFoodImage env file = Rejected (ErrorObj invalid_message).
Proof. intros Hb Ht Hp. rewrite analyze_after_response, Hb, Ht, Hp. reflexivity. Qed.

Lemma analyze_parsed (body : string) (v : JSON) :
  truthy_reason (blockReason response) = false ->
  text response = Some body ->
  JSON_parse (trim body) = Some v ->
  analyzeFoodImage env file = Resolved v.
Proof. intros Hb Ht Hp. rewrite analyze_after_response, Hb, Ht, Hp. reflexivity. Qed.

End Client.

Lemma blocked_is_not_invalid (X : string) : blocked_message X <> invalid_message.
Proof. unfold blocked_message, invalid_message. simpl. discriminate. Qed.

Lemma blocked_message_contains (X : string) : contains X (blocked_message X).
Proof.
  exists "Request was blocked due to: "%string,
         ". This may be due to safety settings."%string.
  reflexivity.
Qed.

Lemma contains_after (p X s : string) : contains X s -> contains X (p ++ s)%string.
Proof.
  intros (a & b & ->). exists (p ++ a)%string, b.
  clear. induction p as [|c p IH]; simpl; [reflexivity|]. rewrite IH. reflexivity.
Qed.

(* ------------------------------------------------------------------------- *)
(** ** The controller: one submission and its completion *)
(* ------------------------------------------------------------------------- *)

Lemma find_call_fresh (l : list (nat * File)) (n : nat) (f : File) :
  Forall (fun c => fst c < n) l -> find_call n (l ++ [(n, f)]) = Some f.
Proof.
  induction 1 as [|[c g] l Hc _ IH]; simpl.
  - rewrite Nat.eqb_refl. reflexivity.
  - simpl in Hc. destruct (Nat.eqb_spec c n); [lia|]. exact IH.
Qed.

(** Selecting a file that is not the selected object: the old preview is
    revoked, a new one is created, and a call on the file is in flight. *)
Lemma step_select_new (w : World) (f : File) (rest : list File) :
  mounted w = true -> same_object (imageFile (ui w)) (Some f) = false ->
  let w' := step w (FileSelect (Some (f :: rest))) in
  ui w' = {| imageFile := Some f; analysis := JNull; isLoading := true;
             error := None; imageUrl := Some (next_url w) |}
  /\ inflight w' = inflight w ++ [(next_call w, f)]
  /\ mounted w' = true.
Proof.
  intros Hm Hnew. simpl. rewrite Hm. unfold commit. simpl. rewrite Hnew.
  unfold effect.
  replace (ui (run_cleanup _)) with
    (setImageFile (Some f) (setAnalysis JNull (setError None (ui w))))
    by (unfold run_cleanup; simpl; destruct (cleanup w); reflexivity).
  simpl. unfold run_cleanup. simpl. destruct (cleanup w); simpl; auto.
Qed.

(** What makes a render throw. *)
Lemma throws_inversion (s : State) :
  throws s = true ->
  shows_image s = true
  /\ truthy (analysis s) = true
  /\ truthy_opt (get (analysis s) "isFood") = true
  /\ Result.renderResult (analysis s) = None.
Proof.
  unfold throws, shows_image, renderContent.
  destruct (imageFile s); [|discriminate]. destruct (imageUrl s); [|discriminate].
  destruct (isLoading s); destruct (error s) as [m|]; try destruct (truthy_string m);
    destruct (truthy (analysis s)); destruct (truthy_opt (get (analysis s) "isFood"));
    cbn [when app andb negb existsb orb]; try discriminate;
    destruct (Result.renderResult (analysis s)); try discriminate; auto.
Qed.

Lemma throws_result (s : State) :
  shows_image s = true -> truthy (analysis s) = true ->
  truthy_opt (get (analysis s) "isFood") = true ->
  throws s = match Result.renderResult (analysis s) with Some _ => false | None => true end.
Proof.
  unfold throws, shows_image, renderContent.
  destruct (imageFile s); [|discriminate]. destruct (imageUrl s); [|discriminate].
  intros _ -> ->.
  destruct (isLoading s); destruct (error s) as [m|]; try destruct (truthy_string m);
    cbn [when app andb negb existsb orb];
    destruct (Result.renderResult (analysis s)); reflexivity.
Qed.

Lemma throws_spec (s : State) :
  throws s = shows_image s && negb (result_renders (analysis s)).
Proof.
  unfold throws, shows_image, renderContent, result_renders.
  destruct (imageFile s); [|reflexivity]. destruct (imageUrl s); [|reflexivity].
  destruct (isLoading s); destruct (error s) as [m|]; try destruct (truthy_string m);
    destruct (truthy (analysis s)); destruct (truthy_opt (get (analysis s) "isFood"));
    cbn [when app andb negb existsb orb]; try reflexivity;
    destruct (Result.renderResult (analysis s)); reflexivity.
Qed.

Lemma no_throw_when_result_renders (s : State) :
  result_renders (analysis s) = true -> throws s = false.
Proof. intros H. rewrite throws_spec, H. apply andb_false_r. Qed.

Lemma resume_result_renders (p : Promise JSON) (s : State) :
  outcome_renders p = true -> result_renders (analysis s) = true ->
  result_renders (analysis (performAnalysis_resume p s)) = true.
Proof. destruct p as [v|err]; simpl; auto. Qed.

Lemma no_throw_renders (s : State) : throws s = false <-> renders (renderContent s).
Proof.
  unfold throws, renders. split.
  - intros Ht r Hin Hnone.
    assert (Hex : existsb
              (fun v => match v with
                        | ResultView r0 =>
                            match Result.renderResult r0 with
                            | Some _ => false
                            | None => true
                            end
                        | _ => false
                        end) (renderContent s) = true).
    { apply existsb_exists. exists (ResultView r). split; [exact Hin|].
      rewrite Hnone. reflexivity. }
    congruence.
  - intros Hr. destruct (existsb _ (renderContent s)) eqn:Hex; [|reflexivity].
    apply existsb_exists in Hex as ([| | | |r] & Hin & Hx); try discriminate.
    specialize (Hr r Hin). destruct (Result.renderResult r); [discriminate | congruence].
Qed.

Lemma no_throw_renders_not (s : State) : ~ renders (renderContent s) -> throws s = true.
Proof.
  intros H. destruct (throws s) eqn:Ht; [reflexivity|].
  exfalso. apply H, no_throw_renders, Ht.
Qed.

Lemma no_throw_without_analysis (s : State) : analysis s = JNull -> throws s = false.
Proof.
  intros Ha. destruct (throws s) eqn:Ht; [|reflexivity].
  apply throws_inversion in Ht as (_ & Ht & _). rewrite Ha in Ht. discriminate.
Qed.

Lemma no_throw_when_not_food (s : State) :
  truthy_opt (get (analysis s) "isFood") = false -> throws s = false.
Proof.
  intros Ha. destruct (throws s) eqn:Ht; [|reflexivity].
  apply throws_inversion in Ht as (_ & _ & Ht & _). congruence.
Qed.

Lemma no_throw_when_rendered (s : State) (b : Result.Block) :
  Result.renderResult (analysis s) = Some b -> throws s = false.
Proof.
  intros Ha. destruct (throws s) eqn:Ht; [|reflexivity].
  apply throws_inversion in Ht as (_ & _ & _ & Ht). congruence.
Qed.

(** A completion writes its outcome and leaves the list of calls without
    the completed one, whether or not the render that follows throws. *)
Lemma step_settle_ui (w : World) (call : nat) (env : Env) (f : File) :
  mounted w = true -> find_call call (inflight w) = Some f ->
  ui (step w (Settle call env)) = performAnalysis_resume (analyzeFoodImage env f) (ui w)
  /\ inflight (step w (Settle call env)) = drop_call call (inflight w).
Proof.
  intros Hm Hf. unfold step. rewrite Hf, Hm. cbv zeta.
  destruct (throws (performAnalysis_resume (analyzeFoodImage env f) (ui w)));
    [|split; reflexivity].
  cbn [ui inflight set_mounted].
  match goal with
  | |- context [run_cleanup ?x] =>
      destruct (run_cleanup_frame x) as (Hui & _ & Hin & _); rewrite Hui, Hin
  end.
  split; reflexivity.
Qed.

(** A completion whose render does not throw. *)
Lemma step_settle (w : World) (call : nat) (env : Env) (f : File) :
  mounted w = true -> find_call call (inflight w) = Some f ->
  throws (performAnalysis_resume (analyzeFoodImage env f) (ui w)) = false ->
  step w (Settle call env)
  = set_ui (performAnalysis_resume (analyzeFoodImage env f) (ui w))
           (set_inflight (drop_call call (inflight w)) w)
  /\ mounted (step w (Settle call env)) = true.
Proof.
  intros Hm Hf Ht. unfold step. rewrite Hf, Hm. cbv zeta. rewrite Ht.
  split; [reflexivity | exact Hm].
Qed.

(** A completion whose render throws: the component is gone and its preview
    revoked. *)
Lemma step_settle_crash (w : World) (call : nat) (env : Env) (f : File) :
  wf w -> mounted w = true -> find_call call (inflight w) = Some f ->
  throws (performAnalysis_resume (analyzeFoodImage env f) (ui w)) = true ->
  mounted (step w (Settle call env)) = false
  /\ live (step w (Settle call env)) = []
  /\ revoked (step w (Settle call env)) = revoked w ++ live w.
Proof.
  intros [Hcore _] Hm Hf Ht. unfold step. rewrite Hf, Hm. cbv zeta. rewrite Ht.
  cbn [mounted live revoked set_mounted].
  match goal with
  | |- context [run_cleanup ?x] =>
      assert (Hx : wf_core x)
        by (destruct Hcore; constructor;
            cbn [ui set_ui set_inflight inflight next_call heap live cleanup revoked next_url];
            auto;
            [ clear - wf_calls0; induction wf_calls0 as [|[c g] l Hc Hl IH]; simpl;
              [constructor | destruct (Nat.eqb c call); [assumption | constructor; assumption]]
            | rewrite (proj1 (resume_keeps_image _ _)); assumption ]);
      destruct (wf_run_cleanup x Hx) as (Hl & _ & _ & _ & Hr); rewrite Hl, Hr
  end.
  auto.
Qed.

Lemma submit_and_settle_ui (w : World) (f : File) (env : Env) :
  wf w -> mounted w = true -> same_object (imageFile (ui w)) (Some f) = false ->
  ui (submit_and_settle w f env) =
  performAnalysis_resume (analyzeFoodImage env f)
    {| imageFile := Some f; analysis := JNull; isLoading := true;
       error := None; imageUrl := Some (next_url w) |}.
Proof.
  intros [Hwf _] Hm Hnew. unfold submit_and_settle, run.
  destruct (step_select_new w f [] Hm Hnew) as (Hui & Hin & Hm').
  assert (Hf : find_call (next_call w) (inflight (step w (FileSelect (Some [f])))) = Some f)
    by (rewrite Hin; apply find_call_fresh, Hwf).
  destruct (step_settle_ui _ (next_call w) env f Hm' Hf) as (Hui' & _).
  rewrite Hui', Hui. reflexivity.
Qed.

Lemma empty_selection (w : World) :
  handleFileSelect None (ui w) = ui w
  /\ handleFileSelect (Some []) (ui w) = ui w
  /\ step w (FileSelect None) = w
  /\ step w (FileSelect (Some [])) = w.
Proof.
  repeat split; simpl; destruct (mounted w); auto;
    unfold commit; simpl; rewrite same_object_refl, set_ui_same; reflexivity.
Qed.

(** C9.  Calling the file-selection handler with [null] or with an empty
    list changes nothing: the five cells keep their values, nothing is put
    in flight, and the rest of the component is as it was. *)
Theorem C9_empty_selection_changes_nothing (w : World) :
  handleFileSelect None (ui w) = ui w
  /\ handleFileSelect (Some []) (ui w) = ui w
  /\ step w (FileSelect None) = w
  /\ step w (FileSelect (Some [])) = w.
Proof.
  split; [reflexivity|]. split; [reflexivity|].
  split; simpl; destruct (mounted w); try reflexivity;
    unfold commit; simpl; rewrite same_object_refl; apply set_ui_same.
Qed.

(** C10.  The block reason is tested before the body is parsed: a response
    that carries a block reason makes the call fail with the blocked-request
    error whatever its body is, never with the invalid-response error; no
    blocked-request message is the invalid-response message; and a response
    on which the call fails with the invalid-response error carries no block
    reason. *)
Theorem C10_block_check_precedes_parsing
  (env : Env) (file : File) (part : Part) (response : GenerateContentResponse)
  (X : string) :
  fileToPart env file = Resolved part ->
  generateContent env (request_for part) = Resolved response ->
  blockReason response = Some X -> truthy_string X = true ->
  analyzeFoodImage env file = Rejected (ErrorObj (blocked_message X))
  /\ analyzeFoodImage env file <> Rejected (ErrorObj invalid_message)
  /\ (forall Y, blocked_message Y <> invalid_message)
  /\ (forall env' file' part' response',
      fileToPart env' file' = Resolved part' ->
      generateContent env' (request_for part') = Resolved response' ->
      analyzeFoodImage env' file' = Rejected (ErrorObj invalid_message) ->
      truthy_reason (blockReason response') = false).
Proof.
  intros He Ha HX Ht.
  pose proof (analyze_blocked env file part response He Ha X HX Ht) as Hb.
  assert (Hmsg : forall (p : Promise JSON) m m',
             p = Rejected (ErrorObj m) -> p = Rejected (ErrorObj m') -> m = m').
  { intros p m m' H1 H2. rewrite H1 in H2.
    exact (f_equal (fun q : Promise JSON =>
                      match q with
                      | Rejected (ErrorObj t) => t
                      | _ => EmptyString
                      end) H2). }
  split; [exact Hb|]. split; [|split; [exact blocked_is_not_invalid|]].
  - intros Heq. exact (blocked_is_not_invalid X (Hmsg _ _ _ Hb Heq)).
  - intros env' file' part' response' He' Ha' Hinv.
    destruct (truthy_reason (blockReason response')) eqn:Hr; [|reflexivity].
    exfalso. rewrite (analyze_after_response env' file' part' response' He' Ha'), Hr in Hinv.
    exact (blocked_is_not_invalid _ (Hmsg _ _ _ eq_refl Hinv)).
Qed.

Lemma C10_witness :
  analyzeFoodImage (Sample.blocks "SAFETY" "this is not JSON") Sample.pancakes
  = Rejected (ErrorObj (blocked_message "SAFETY"))
  /\ analyzeFoodImage (Sample.blocks "SAFETY" "this is not JSON") Sample.pancakes
     <> Rejected (ErrorObj invalid_message).
Proof.
  destruct (C10_block_check_precedes_parsing
              (Sample.blocks "SAFETY" "this is not JSON") Sample.pancakes
              {| inlineData := {| mimeType := "image/png"; data := "iVBORw==" |} |}
              {| blockReason := Some "SAFETY"; text := Some "this is not JSON" |} "SAFETY"
              eq_refl eq_refl eq_refl eq_refl)
    as (Hblocked & Hnot & _).
  split; assumption.
Defined.

(** C3.  A response that carries the block reason [X] makes the call fail
    with an error whose message contains [X], and the controller, once the
    call of a submitted image completes so, is in the failed state with a
    message that contains [X]. *)
Theorem C3_block_reason_reaches_the_user
  (history : list Event) (env : Env) (file : File) (part : Part)
  (response : GenerateContentResponse) (X : string) :
  let w := run mount history in
  mounted w = true -> same_object (imageFile (ui w)) (Some file) = false ->
  fileToPart env file = Resolved part ->
  generateContent env (request_for part) = Resolved response ->
  blockReason response = Some X -> truthy_string X = true ->
  (exists message,
      analyzeFoodImage env file = Rejected (ErrorObj message) /\ contains X message)
  /\ (exists message,
      Failed message (ui (submit_and_settle w file env)) /\ contains X message).
Proof.
  intros w Hm Hnew He Ha HX Ht.
  pose proof (analyze_blocked env file part response He Ha X HX Ht) as Hb.
  split.
  - exists (blocked_message X). split; [exact Hb | apply blocked_message_contains].
  - exists ("Failed to analyze the image. " ++ blocked_message X)%string. split.
    + unfold w. rewrite submit_and_settle_ui; auto using wf_history.
      rewrite Hb. repeat split.
    + apply contains_after, blocked_message_contains.
Qed.

Lemma C3_witness :
  exists message,
    Failed message
      (ui (submit_and_settle (run mount []) Sample.pancakes
             (Sample.blocks "PROHIBITED_CONTENT" Sample.pancakes_body)))
    /\ contains "PROHIBITED_CONTENT" message.
Proof.
  apply (C3_block_reason_reaches_the_user []
           (Sample.blocks "PROHIBITED_CONTENT" Sample.pancakes_body) Sample.pancakes
           {| inlineData := {| mimeType := "image/png"; data := "iVBORw==" |} |}
           {| blockReason := Some "PROHIBITED_CONTENT"; text := Some Sample.pancakes_body |}
           "PROHIBITED_CONTENT");
    reflexivity.
Defined.

(** The result block is rendered only for an analysis whose [isFood] is
    truthy. *)
Lemma result_view_needs_food (s : State) (r : JSON) :
  In (ResultView r) (renderContent s) ->
  truthy_opt (get (analysis s) "isFood") = true.
Proof.
  unfold renderContent.
  destruct (imageFile s); [|intros [H|[]]; discriminate].
  destruct (imageUrl s); [|intros [H|[]]; discriminate].
  intros H. repeat (apply in_app_or in H; destruct H as [H|H]).
  - destruct (isLoading s); simpl in H; [destruct H as [H|[]]; discriminate | contradiction].
  - destruct (error s) as [m|]; [|contradiction].
    destruct (truthy_string m); simpl in H; [destruct H as [H|[]]; discriminate | contradiction].
  - destruct (truthy (analysis s) && negb (truthy_opt (get (analysis s) "isFood")));
      simpl in H; [destruct H as [H|[]]; discriminate | contradiction].
  - destruct (truthy_opt (get (analysis s) "isFood")); [reflexivity|].
    rewrite andb_false_r in H. contradiction.
Qed.

(** C5.  A response that parses with [isFood: false] is a success: once the
    call of a submitted image completes with it the controller is in the
    succeeded state, in no failed state, and [renderContent] shows the
    non-food block alone; no state that holds this analysis shows the result
    block. *)
Theorem C5_not_food_is_a_success
  (history : list Event) (env : Env) (file : File) (part : Part)
  (response : GenerateContentResponse) (body : string) (v : JSON) :
  let w := run mount history in
  mounted w = true -> same_object (imageFile (ui w)) (Some file) = false ->
  fileToPart env file = Resolved part ->
  generateContent env (request_for part) = Resolved response ->
  truthy_reason (blockReason response) = false ->
  text response = Some body ->
  JSON_parse (trim body) = Some v ->
  get v "isFood" = Some (JBool false) ->
  Succeeded v (ui (submit_and_settle w file env))
  /\ (forall message, ~ Failed message (ui (submit_and_settle w file env)))
  /\ renderContent (ui (submit_and_settle w file env)) = [NonFoodView]
  /\ (forall s r, analysis s = v -> ~ In (ResultView r) (renderContent s)).
Proof.
  intros w Hm Hnew He Ha Hb Htext Hp Hfood.
  pose proof (analyze_parsed env file part response He Ha body v Hb Htext Hp) as Hr.
  assert (Hui : ui (submit_and_settle w file env) =
                {| imageFile := Some file; analysis := v; isLoading := false;
                   error := None; imageUrl := Some (next_url w) |}).
  { unfold w. rewrite submit_and_settle_ui; auto using wf_history.
    rewrite Hr. reflexivity. }
  rewrite Hui. repeat split.
  - intros message (_ & Herr & _). discriminate.
  - unfold renderContent. simpl. rewrite Hfood.
    destruct v; try discriminate. reflexivity.
  - intros s r Hs Hin. apply result_view_needs_food in Hin.
    rewrite Hs, Hfood in Hin. discriminate.
Qed.

Lemma C5_witness :
  renderContent (ui (submit_and_settle (run mount []) Sample.car
                       (Sample.replies Sample.not_food_body)))
  = [NonFoodView].
Proof.
  apply (C5_not_food_is_a_success [] (Sample.replies Sample.not_food_body) Sample.car
           {| inlineData := {| mimeType := "image/jpeg"; data := "/9j/" |} |}
           {| blockReason := None; text := Some Sample.not_food_body |}
           Sample.not_food_body Sample.not_food_result);
    reflexivity.
Defined.

(** The state a completion with the value [v] leaves for the render that
    follows it. *)
Lemma settled_state_throws (f : File) (u : nat) (v : JSON) :
  throws {| imageFile := Some f; analysis := v; isLoading := false;
            error := None; imageUrl := Some u |}
  = negb (result_renders v).
Proof. rewrite throws_spec. reflexivity. Qed.

(** A submission and the completion of its call, as a whole world: the
    render after the completion either goes through, and the component
    stays, or throws, and the component is gone with its preview revoked. *)
Lemma submit_and_settle_world (w : World) (f : File) (env : Env) :
  wf w -> mounted w = true -> same_object (imageFile (ui w)) (Some f) = false ->
  let w' := submit_and_settle w f env in
  let s' := performAnalysis_resume (analyzeFoodImage env f)
              {| imageFile := Some f; analysis := JNull; isLoading := true;
                 error := None; imageUrl := Some (next_url w) |} in
  ui w' = s'
  /\ (throws s' = false -> mounted w' = true /\ live w' = [next_url w])
  /\ (throws s' = true -> mounted w' = false /\ live w' = []).
Proof.
  intros Hwf Hm Hnew w' s'.
  assert (Hui : ui w' = s') by (apply submit_and_settle_ui; assumption).
  split; [exact Hui|].
  unfold w', submit_and_settle in *. cbn [run] in *.
  destruct (step_select_new w f [] Hm Hnew) as (Hu1 & Hin & Hm1).
  pose proof (wf_step w (FileSelect (Some [f])) Hwf) as Hwf1.
  set (w1 := step w (FileSelect (Some [f]))) in *.
  assert (Hf : find_call (next_call w) (inflight w1) = Some f).
  { rewrite Hin. apply find_call_fresh. destruct Hwf as [[] _]. assumption. }
  assert (Hlive : live w1 = [next_url w]).
  { destruct Hwf1 as [Hc Hn]. rewrite (wf_live _ Hc).
    assert (Hcl : cleanup w1 = Some (next_url w)).
    { unfold w1. simpl. rewrite Hm. unfold commit. simpl. rewrite Hnew.
      unfold effect, run_cleanup. simpl. destruct (cleanup w); reflexivity. }
    rewrite Hcl. reflexivity. }
  split; intros Ht.
  - destruct (step_settle w1 (next_call w) env f Hm1 Hf) as (Heq & Hm2).
    { rewrite Hu1. exact Ht. }
    split; [exact Hm2|]. rewrite Heq. exact Hlive.
  - destruct (step_settle_crash w1 (next_call w) env f Hwf1 Hm1 Hf) as (Hm2 & Hl & _).
    { rewrite Hu1. exact Ht. }
    split; assumption.
Qed.

(** C1, as the specification states it, fails: a body that is valid JSON and
    leaves out [healthierVariation] and the four members of [nutrition], all
    of them required by the schema, is returned as the result; the page
    renders it, and the controller ends in the succeeded state holding it. *)
Lemma C1_partial_result_is_accepted :
  In "healthierVariation" (required_fields schema)
  /\ In "nutrition" (required_fields schema)
  /\ JSON_parse Sample.sparse_body = Some Sample.sparse_result
  /\ get Sample.sparse_result "healthierVariation" = None
  /\ get Sample.sparse_result "nutrition" = Some (JObject [])
  /\ analyzeFoodImage (Sample.replies Sample.sparse_body) Sample.pancakes
     = Resolved Sample.sparse_result
  /\ Succeeded Sample.sparse_result
       (ui (submit_and_settle mount Sample.pancakes (Sample.replies Sample.sparse_body)))
  /\ mounted (submit_and_settle mount Sample.pancakes (Sample.replies Sample.sparse_body))
     = true
  /\ throws (ui (submit_and_settle mount Sample.pancakes
                   (Sample.replies Sample.sparse_body))) = false
  /\ renderContent (ui (submit_and_settle mount Sample.pancakes
                          (Sample.replies Sample.sparse_body)))
     = [ResultView Sample.sparse_result].
Proof.
  split; [simpl; auto 10|]. split; [simpl; auto 10|]. repeat split; reflexivity.
Qed.

(** C1, amended.  For a response without a block reason.  When it has no
    text, reading the text throws a TypeError and the call fails with it, not
    with the invalid-response error.  When its trimmed text is not valid JSON
    the call fails with the invalid-response error.  In both cases the
    controller ends in the failed state with the message built from the
    error, still mounted.  When the trimmed text is valid JSON the call
    returns the parsed value as it is (nothing is checked against the schema
    and nothing is defaulted); then, if the analysis column can be rendered
    for the value, the controller ends in the succeeded state holding it,
    mounted, and the page renders; otherwise (the value is truthy with a
    truthy [isFood] and the result block cannot be rendered for it) the
    render throws and the component is gone with its preview revoked. *)
Theorem C1_unparsable_fails_and_parsed_is_returned_as_is
  (history : list Event) (env : Env) (file : File) (part : Part)
  (response : GenerateContentResponse) :
  let w := run mount history in
  let w' := submit_and_settle w file env in
  mounted w = true -> same_object (imageFile (ui w)) (Some file) = false ->
  fileToPart env file = Resolved part ->
  generateContent env (request_for part) = Resolved response ->
  truthy_reason (blockReason response) = false ->
  match text response with
  | None =>
      analyzeFoodImage env file = Rejected (ErrorObj no_text_message)
      /\ no_text_message <> invalid_message
      /\ Failed ("Failed to analyze the image. " ++ no_text_message)%string (ui w')
      /\ mounted w' = true
  | Some body =>
      match JSON_parse (trim body) with
      | None =>
          analyzeFoodImage env file = Rejected (ErrorObj invalid_message)
          /\ Failed ("Failed to analyze the image. " ++ invalid_message)%string (ui w')
          /\ mounted w' = true
      | Some v =>
          analyzeFoodImage env file = Resolved v
          /\ if result_renders v
             then Succeeded v (ui w') /\ mounted w' = true
                  /\ throws (ui w') = false /\ renders (renderContent (ui w'))
             else mounted w' = false /\ live w' = []
      end
  end.
Proof.
  intros w w' Hm Hnew He Ha Hb.
  destruct (submit_and_settle_world w file env (wf_history history) Hm Hnew)
    as (Hui & Hok & Hcrash).
  fold w' in Hui, Hok, Hcrash.
  destruct (text response) as [body|] eqn:Htext.
  - destruct (JSON_parse (trim body)) as [v|] eqn:Hp.
    + pose proof (analyze_parsed env file part response He Ha body v Hb Htext Hp) as Hr.
      split; [exact Hr|].
      rewrite Hr in Hui, Hok, Hcrash.
      change (performAnalysis_resume (Resolved v)
                {| imageFile := Some file; analysis := JNull; isLoading := true;
                   error := None; imageUrl := Some (next_url w) |})
        with {| imageFile := Some file; analysis := v; isLoading := false;
                error := None; imageUrl := Some (next_url w) |} in Hui, Hok, Hcrash.
      rewrite settled_state_throws in Hok, Hcrash.
      destruct (result_renders v) eqn:Ht.
      * destruct (Hok eq_refl) as (Hmw & _).
        assert (Hth : throws (ui w') = false)
          by (rewrite Hui, settled_state_throws, Ht; reflexivity).
        split; [rewrite Hui; repeat split|]. split; [exact Hmw|]. split; [exact Hth|].
        apply no_throw_renders. exact Hth.
      * exact (Hcrash eq_refl).
    + pose proof (analyze_unparsable env file part response He Ha body Hb Htext Hp) as Hr.
      split; [exact Hr|].
      rewrite Hr in Hui, Hok.
      split; [rewrite Hui; repeat split|].
      apply Hok. apply no_throw_without_analysis. reflexivity.
  - pose proof (analyze_without_text env file part response He Ha Hb Htext) as Hr.
    split; [exact Hr|]. split; [unfold no_text_message, invalid_message; discriminate|].
    rewrite Hr in Hui, Hok.
    split; [rewrite Hui; repeat split|].
    apply Hok. apply no_throw_without_analysis. reflexivity.
Qed.

Lemma C1_witness :
  analyzeFoodImage (Sample.replies "Sorry, I cannot help with that.") Sample.pancakes
  = Rejected (ErrorObj invalid_message)
  /\ Failed ("Failed to analyze the image. " ++ invalid_message)%string
       (ui (submit_and_settle (run mount []) Sample.pancakes
              (Sample.replies "Sorry, I cannot help with that.")))
  /\ mounted (submit_and_settle (run mount []) Sample.pancakes
                (Sample.replies "Sorry, I cannot help with that.")) = true.
Proof.
  apply (C1_unparsable_fails_and_parsed_is_returned_as_is []
           (Sample.replies "Sorry, I cannot help with that.") Sample.pancakes
           {| inlineData := {| mimeType := "image/png"; data := "iVBORw==" |} |}
           {| blockReason := None; text := Some "Sorry, I cannot help with that." |});
    reflexivity.
Defined.

(* ------------------------------------------------------------------------- *)
(** ** The encoder: base64 and data URLs *)
(* ------------------------------------------------------------------------- *)

Lemma base64_value_char (x : sextet) : base64_value (base64_char x) = Some x.
Proof. destruct x as [[] [] [] [] [] []]; reflexivity. Qed.

Lemma base64_char_not_pad (x : sextet) : Ascii.eqb (base64_char x) "=" = false.
Proof. destruct x as [[] [] [] [] [] []]; reflexivity. Qed.

Lemma base64_char_not_comma (x : sextet) : Ascii.eqb (base64_char x) "," = false.
Proof. destruct x as [[] [] [] [] [] []]; reflexivity. Qed.

Lemma octet1_sextets (a b : ascii) : octet1 (sextet1 a) (sextet2 a b) = a.
Proof. destruct a, b; reflexivity. Qed.

Lemma octet2_sextets (a b c : ascii) : octet2 (sextet2 a b) (sextet3 b c) = b.
Proof. destruct a, b, c; reflexivity. Qed.

Lemma octet3_sextets (b c : ascii) : octet3 (sextet3 b c) (sextet4 c) = c.
Proof. destruct b, c; reflexivity. Qed.

Lemma list_ind_by_three (A : Type) (P : list A -> Prop) :
  P [] -> (forall a, P [a]) -> (forall a b, P [a; b]) ->
  (forall a b c l, P l -> P (a :: b :: c :: l)) ->
  forall l, P l.
Proof.
  intros H0 H1 H2 H3 l.
  enough (H : P l /\ (forall a, P (a :: l)) /\ (forall a b, P (a :: b :: l)))
    by apply H.
  induction l as [|x l (IH0 & IH1 & IH2)]; repeat split; auto.
Qed.

Lemma base64_octets_roundtrip (l : list ascii) :
  base64_decode_octets (base64_encode_octets l) = Some l.
Proof.
  induction l as [|a|a b|a b c l IH] using list_ind_by_three.
  - reflexivity.
  - cbn [base64_encode_octets base64_decode_octets].
    rewrite !base64_value_char. simpl. rewrite octet1_sextets. reflexivity.
  - cbn [base64_encode_octets base64_decode_octets].
    rewrite !base64_value_char. simpl.
    rewrite base64_char_not_pad, octet1_sextets, octet2_sextets.
    reflexivity.
  - cbn [base64_encode_octets base64_decode_octets].
    rewrite !base64_value_char, base64_char_not_pad, IH.
    rewrite octet1_sextets, octet2_sextets, octet3_sextets. reflexivity.
Qed.

Lemma base64_roundtrip (data : list byte) :
  base64_decode (base64_encode data) = Some data.
Proof.
  unfold base64_decode, base64_encode. rewrite base64_octets_roundtrip. simpl.
  f_equal. rewrite map_map. rewrite <- (map_id data) at 2.
  apply map_ext. intros b. apply byte_of_ascii_of_byte.
Qed.

Lemma without_append (c : ascii) (a b : string) :
  without c (a ++ b)%string = without c a && without c b.
Proof.
  induction a as [|d a IH]; simpl; [reflexivity|]. rewrite IH, andb_assoc. reflexivity.
Qed.

Lemma base64_without_comma (l : list ascii) :
  without "," (base64_encode_octets l) = true.
Proof.
  induction l as [|a|a b|a b c l IH] using list_ind_by_three;
    cbn [base64_encode_octets without];
    rewrite ?base64_char_not_comma, ?IH; reflexivity.
Qed.

Lemma split_at_separator (sep : ascii) (a b : string) :
  without sep a = true -> without sep b = true ->
  split sep (a ++ String sep b)%string = [a; b].
Proof.
  intros Ha Hb. induction a as [|d a IH]; simpl.
  - rewrite Ascii.eqb_refl. f_equal.
    clear -Hb. induction b as [|d b IH]; simpl in *; [reflexivity|].
    apply andb_prop in Hb as [Hd Hb]. apply negb_true_iff in Hd.
    rewrite Hd, (IH Hb). reflexivity.
  - simpl in Ha. apply andb_prop in Ha as [Hd Ha]. apply negb_true_iff in Hd.
    rewrite Hd, (IH Ha). reflexivity.
Qed.

Lemma media_type_char_facts (c : ascii) (rest : string) :
  media_type_char c = true ->
  Ascii.eqb c "," = false /\ Ascii.eqb c ";" = false
  /\ starts_with_any line_terminators (String c rest) = false.
Proof.
  destruct c as [[] [] [] [] [] [] [] []]; intros H;
    try discriminate H; repeat split; reflexivity.
Qed.

Lemma until_semicolon_type (t tail : string) :
  all_chars media_type_char t = true ->
  until_semicolon (t ++ String ";" tail)%string = Some t.
Proof.
  induction t as [|c t IH]; intros H.
  - reflexivity.
  - simpl in H. apply andb_prop in H as [Hc Ht].
    destruct (media_type_char_facts c (t ++ String ";" tail) Hc) as (_ & Hs & Hl).
    cbn [append until_semicolon]. rewrite Hs, Hl, (IH Ht). reflexivity.
Qed.

Lemma type_without_comma (t : string) :
  all_chars media_type_char t = true -> without "," t = true.
Proof.
  induction t as [|c t IH]; intros H; [reflexivity|].
  simpl in H. apply andb_prop in H as [Hc Ht].
  destruct (media_type_char_facts c EmptyString Hc) as (Hcomma & _).
  simpl. rewrite Hcomma, (IH Ht). reflexivity.
Qed.

Lemma data_url_shape (t payload : string) :
  ("data:" ++ t ++ ";base64," ++ payload)%string
  = (("data:" ++ t ++ ";base64") ++ String "," payload)%string.
Proof.
  simpl. do 5 f_equal. induction t as [|c t IH]; simpl; [reflexivity|].
  rewrite IH. reflexivity.
Qed.

(** What [fileToPart] makes of a data URL with a bare media type. *)
Lemma fileToPart_of_bare_url (env : Env) (f : File) (t : string) :
  reader env f = OnLoad ("data:" ++ t ++ ";base64," ++ base64_encode (contents f)) ->
  bare_media_type t = true ->
  fileToPart env f =
  Resolved {| inlineData := {| mimeType := t;
                               data := base64_encode (contents f) |} |}.
Proof.
  intros Hread Hbare. apply andb_prop in Hbare as [Hne Hchars].
  unfold fileToPart. rewrite Hread. cbn [await].
  rewrite data_url_shape, split_at_separator.
  - cbn [List.length Nat.ltb Nat.leb nth].
    replace (match_colon_semicolon ("data:" ++ t ++ ";base64"))
      with (Some t).
    + rewrite Hne. reflexivity.
    + symmetry. simpl.
      rewrite (until_semicolon_type t "base64" Hchars). reflexivity.
  - simpl. rewrite without_append, (type_without_comma _ Hchars). reflexivity.
  - apply base64_without_comma.
Qed.





(* ------------------------------------------------------------------------- *)
(** ** The controller: reset, retry and the preview resource *)
(* ------------------------------------------------------------------------- *)

Lemma step_reset (w : World) :
  wf w -> mounted w = true ->
  ui (step w Reset) = initial
  /\ live (step w Reset) = []
  /\ revoked (step w Reset) = revoked w ++ live w.
Proof.
  intros [Hcore Hidle] Hm. simpl. rewrite Hm. unfold commit. simpl.
  destruct (imageFile (ui w)) as [f|] eqn:Ef; simpl.
  - assert (Hcore' : wf_core (set_ui (handleReset (ui w)) w)).
    { destruct Hcore. constructor; simpl; auto. discriminate. }
    destruct (wf_run_cleanup _ Hcore') as (Hl & _ & _ & _ & Hr).
    destruct (run_cleanup_frame (set_ui (handleReset (ui w)) w)) as (Hui & _).
    simpl in Hr, Hui.
    set (w1 := run_cleanup (set_ui (handleReset (ui w)) w)) in *.
    unfold effect. rewrite Hui. cbn [imageFile handleReset setIsLoading setError
      setAnalysis setImageUrl setImageFile ui live revoked].
    rewrite Hl, Hr. auto.
  - rewrite (wf_live w Hcore), (Hidle eq_refl), app_nil_r. auto.
Qed.

Lemma step_select_new_preview (w : World) (f : File) (rest : list File) :
  wf w -> mounted w = true -> same_object (imageFile (ui w)) (Some f) = false ->
  live (step w (FileSelect (Some (f :: rest)))) = [next_url w]
  /\ revoked (step w (FileSelect (Some (f :: rest)))) = revoked w ++ live w.
Proof.
  intros [Hcore _] Hm Hnew. pose proof (wf_live w Hcore) as Hl.
  simpl. rewrite Hm. unfold commit. simpl. rewrite Hnew.
  unfold effect, run_cleanup. simpl.
  destruct (cleanup w) as [u|]; simpl; rewrite Hl; simpl.
  - destruct (Nat.eq_dec u u) as [_|N]; [auto | congruence].
  - rewrite app_nil_r. auto.
Qed.

Lemma live_at_most_one (w : World) : wf w -> List.length (live w) <= 1.
Proof.
  intros [Hcore _]. rewrite (wf_live w Hcore). destruct (cleanup w); simpl; lia.
Qed.

Lemma live_not_revoked (w : World) (u : ObjectURL) :
  wf w -> In u (live w) -> ~ In u (revoked w).
Proof.
  intros [Hcore _]. rewrite (wf_live w Hcore).
  destruct (cleanup w) as [v|] eqn:E; [|intros []].
  intros [<-|[]]. apply (wf_cleanup w Hcore v E).
Qed.

(** C7.  After any sequence of events at most one preview URL is live, no
    URL has been revoked twice and no live URL has been revoked.  A reset
    then leaves the five cells as they were at mount, no URL live, and the
    URL that was live revoked by exactly one call in the whole log; selecting
    another image revokes the live URL and leaves the new one as the only
    live URL; and unmounting leaves no URL live. *)
Theorem C7_preview_is_released_exactly_once (history : list Event) :
  let w := run mount history in
  List.length (live w) <= 1
  /\ NoDup (revoked w)
  /\ (forall u, In u (live w) -> ~ In u (revoked w))
  /\ (mounted w = true ->
      Idle (ui (step w Reset))
      /\ live (step w Reset) = []
      /\ revoked (step w Reset) = revoked w ++ live w
      /\ forall u, In u (live w) ->
           count_occ Nat.eq_dec (revoked (step w Reset)) u = 1)
  /\ (forall f,
      mounted w = true -> same_object (imageFile (ui w)) (Some f) = false ->
      live (step w (FileSelect (Some [f]))) = [next_url w]
      /\ revoked (step w (FileSelect (Some [f]))) = revoked w ++ live w)
  /\ (mounted w = true -> live (step w Unmount) = []).
Proof.
  intros w. pose proof (wf_history history) as Hwf. fold w in Hwf.
  split; [apply live_at_most_one, Hwf|].
  split; [apply Hwf|].
  split; [intros u; apply live_not_revoked, Hwf|].
  split; [|split].
  - intros Hm. destruct (step_reset w Hwf Hm) as (Hui & Hl & Hr).
    repeat split; auto.
    intros u Hu.
    pose proof (wf_step w Reset Hwf) as [Hcore' _].
    pose proof (wf_nodup _ Hcore') as Hnd.
    assert (Hin : In u (revoked (step w Reset)))
      by (rewrite Hr; apply in_or_app; right; exact Hu).
    pose proof (proj1 (NoDup_count_occ Nat.eq_dec _) Hnd u) as Hle.
    apply (proj1 (count_occ_In Nat.eq_dec _ u)) in Hin. lia.
  - intros f Hm Hnew. apply step_select_new_preview; assumption.
  - intros Hm. simpl. rewrite Hm. simpl.
    destruct Hwf as [Hcore _]. apply (wf_run_cleanup w Hcore).
Qed.

Lemma C7_witness :
  live (run mount [FileSelect (Some [Sample.pancakes])]) = [0]
  /\ Idle (ui (step (run mount [FileSelect (Some [Sample.pancakes])]) Reset))
  /\ live (step (run mount [FileSelect (Some [Sample.pancakes])]) Reset) = []
  /\ revoked (step (run mount [FileSelect (Some [Sample.pancakes])]) Reset) = [0].
Proof.
  split; [reflexivity|].
  destruct (C7_preview_is_released_exactly_once [FileSelect (Some [Sample.pancakes])])
    as (_ & _ & _ & Hreset & _).
  destruct (Hreset eq_refl) as (Hidle & Hlive & Hrevoked & _).
  repeat split; assumption.
Defined.

Lemma max_succ (n : nat) : Nat.max n (S n) = S n.
Proof. lia. Qed.

(** C8.  "Try Again", pressed in the failed state, submits a new [File] with
    the bytes, the name and the declared type of the selected one, and from
    there does what selecting that file does: the component is as after
    [handleFileSelect] on it, the error is cleared, the controller is loading
    and a call on that file is in flight. *)
Theorem C8_retry_resubmits_the_selected_image
  (history : list Event) (f : File) (message : string) :
  let w := run mount history in
  mounted w = true -> imageFile (ui w) = Some f -> error (ui w) = Some message ->
  contents (File_copy (heap w) f) = contents f
  /\ name (File_copy (heap w) f) = name f
  /\ type (File_copy (heap w) f) = type f
  /\ step w Retry = step w (FileSelect (Some [File_copy (heap w) f]))
  /\ Loading (ui (step w Retry))
  /\ imageFile (ui (step w Retry)) = Some (File_copy (heap w) f)
  /\ inflight (step w Retry) = inflight w ++ [(next_call w, File_copy (heap w) f)].
Proof.
  intros w Hm Hf Herr. pose proof (wf_history history) as [Hcore _]. fold w in Hcore.
  pose proof (wf_heap w Hcore f Hf) as Hlt.
  assert (Hnew : Nat.eqb (fid f) (heap w) = false)
    by (apply Nat.eqb_neq; lia).
  do 3 (split; [reflexivity|]).
  assert (Hstep : step w Retry =
                  effect (run_cleanup
                            (set_heap (S (heap w))
                               (set_ui (setImageFile (Some (File_copy (heap w) f)) (ui w)) w)))).
  { simpl. rewrite Hm. unfold tryAgain, commit. rewrite Hf. simpl. rewrite Hnew.
    reflexivity. }
  split.
  - rewrite Hstep. simpl. rewrite Hm. unfold commit. simpl. rewrite Hf. simpl.
    rewrite Hnew, max_succ. unfold effect, run_cleanup. simpl.
    destruct (cleanup w); reflexivity.
  - rewrite Hstep. unfold effect, run_cleanup. simpl.
    destruct (cleanup w); simpl; repeat split.
Qed.

Lemma C8_witness :
  Loading (ui (step (run mount [FileSelect (Some [Sample.pancakes]); Settle 0 Sample.offline])
                    Retry))
  /\ inflight (step (run mount [FileSelect (Some [Sample.pancakes]); Settle 0 Sample.offline])
                    Retry)
     = [(1, File_copy 1 Sample.pancakes)].
Proof.
  destruct (C8_retry_resubmits_the_selected_image
              [FileSelect (Some [Sample.pancakes]); Settle 0 Sample.offline]
              Sample.pancakes "Failed to analyze the image. Failed to fetch"
              eq_refl eq_refl eq_refl)
    as (_ & _ & _ & _ & Hloading & _ & Hcalls).
  split; assumption.
Defined.

(* ------------------------------------------------------------------------- *)
(** ** The controller: overlapping calls *)
(* ------------------------------------------------------------------------- *)

Lemma find_call_drop_other (l : list (nat * File)) (a b : nat) :
  a <> b -> find_call a (drop_call b l) = find_call a l.
Proof.
  intros Hab. induction l as [|[c f] l IH]; simpl; [reflexivity|].
  destruct (Nat.eqb_spec c b) as [->|Hcb]; simpl.
  - destruct (Nat.eqb_spec b a); [congruence | reflexivity].
  - rewrite IH. reflexivity.
Qed.

Lemma find_call_app (l l' : list (nat * File)) (a : nat) (f : File) :
  find_call a l = Some f -> find_call a (l ++ l') = Some f.
Proof.
  induction l as [|[c g] l IH]; simpl; [discriminate|].
  destruct (Nat.eqb c a); auto.
Qed.

Lemma find_call_bound (l : list (nat * File)) (a n : nat) (f : File) :
  Forall (fun c => fst c < n) l -> find_call a l = Some f -> a < n.
Proof.
  induction 1 as [|[c g] l Hc _ IH]; simpl; [discriminate|].
  destruct (Nat.eqb_spec c a) as [<-|]; auto.
Qed.

(** Two calls in flight completing one after the other: both outcomes are
    applied, the second on top of the first. *)
Lemma settle_twice (w : World) (a b : nat) (fa fb : File) (enva envb : Env) :
  mounted w = true -> a <> b ->
  find_call a (inflight w) = Some fa -> find_call b (inflight w) = Some fb ->
  result_renders (analysis (ui w)) = true ->
  outcome_renders (analyzeFoodImage enva fa) = true ->
  outcome_renders (analyzeFoodImage envb fb) = true ->
  mounted (run w [Settle a enva; Settle b envb]) = true
  /\ throws (ui (run w [Settle a enva; Settle b envb])) = false
  /\ ui (run w [Settle a enva; Settle b envb]) =
     performAnalysis_resume (analyzeFoodImage envb fb)
       (performAnalysis_resume (analyzeFoodImage enva fa) (ui w)).
Proof.
  intros Hm Hab Ha Hb Hw Hra Hrb. unfold run.
  pose proof (resume_result_renders _ _ Hra Hw) as H1.
  pose proof (resume_result_renders _ _ Hrb H1) as H2.
  destruct (step_settle w a enva fa Hm Ha (no_throw_when_result_renders _ H1))
    as (Heq & Hm').
  assert (Hui : ui (step w (Settle a enva))
                = performAnalysis_resume (analyzeFoodImage enva fa) (ui w))
    by (rewrite Heq; reflexivity).
  assert (Hb' : find_call b (inflight (step w (Settle a enva))) = Some fb)
    by (rewrite Heq; cbn [inflight set_ui set_inflight];
        rewrite find_call_drop_other; auto).
  destruct (step_settle _ b envb fb Hm' Hb') as (Heq' & Hm'').
  { rewrite Hui. apply no_throw_when_result_renders, H2. }
  split; [exact Hm''|].
  assert (Hui' : ui (step (step w (Settle a enva)) (Settle b envb))
                 = performAnalysis_resume (analyzeFoodImage envb fb)
                     (performAnalysis_resume (analyzeFoodImage enva fa) (ui w)))
    by (rewrite Heq'; cbn [ui set_ui]; rewrite Hui; reflexivity).
  split; [|exact Hui'].
  rewrite Hui'. apply no_throw_when_result_renders, H2.
Qed.

(** C2, as the specification states it, fails: the car is the selected
    image and its call has completed with "not food", yet the state holds the
    analysis of the pancakes, whose call completed last, and the result block
    is rendered for it.  Every event of the trace is one the page offers. *)
Lemma C2_stale_response_overwrites :
  feasible mount Sample.stale_last = true
  /\ imageFile (ui (run mount Sample.stale_last)) = Some Sample.car
  /\ analysis (ui (run mount Sample.stale_last)) = Sample.pancakes_result
  /\ renderContent (ui (run mount Sample.stale_last)) = [ResultView Sample.pancakes_result]
  /\ analysis (ui (run mount Sample.car_alone)) = Sample.not_food_result
  /\ renderContent (ui (run mount Sample.car_alone)) = [NonFoodView].
Proof. repeat split; reflexivity. Qed.

(** C2, amended.  When an image B is selected while the call for A is in
    flight and both calls fail or deliver results for which the analysis
    column can be rendered, both completions are applied in the order in
    which the calls complete, with no test that a call is the current one:
    the component stays mounted, the page renders, and the final state is the
    loading state of B with the outcome of the first completion applied and
    then the outcome of the second.  It is what B alone would give when B
    completes last and A's outcome is of the same kind as B's. *)
Theorem C2_completions_apply_in_order_of_arrival
  (history : list Event) (a : nat) (fa fb : File) (enva envb : Env) :
  let w := run mount history in
  let b := next_call w in
  let w' := step w (FileSelect (Some [fb])) in
  let loading_b :=
    {| imageFile := Some fb; analysis := JNull; isLoading := true;
       error := None; imageUrl := Some (next_url w) |} in
  mounted w = true ->
  find_call a (inflight w) = Some fa ->
  same_object (imageFile (ui w)) (Some fb) = false ->
  outcome_renders (analyzeFoodImage enva fa) = true ->
  outcome_renders (analyzeFoodImage envb fb) = true ->
  mounted (run w' [Settle b envb; Settle a enva]) = true
  /\ throws (ui (run w' [Settle b envb; Settle a enva])) = false
  /\ mounted (run w' [Settle a enva; Settle b envb]) = true
  /\ throws (ui (run w' [Settle a enva; Settle b envb])) = false
  /\ ui (run w' [Settle b envb; Settle a enva]) =
    performAnalysis_resume (analyzeFoodImage enva fa)
      (performAnalysis_resume (analyzeFoodImage envb fb) loading_b)
  /\ ui (run w' [Settle a enva; Settle b envb]) =
    performAnalysis_resume (analyzeFoodImage envb fb)
      (performAnalysis_resume (analyzeFoodImage enva fa) loading_b)
  /\ (same_kind (analyzeFoodImage enva fa) (analyzeFoodImage envb fb) ->
      ui (run w' [Settle a enva; Settle b envb]) =
      performAnalysis_resume (analyzeFoodImage envb fb) loading_b)
  /\ (forall ra, analyzeFoodImage enva fa = Resolved ra ->
      analysis (ui (run w' [Settle b envb; Settle a enva])) = ra).
Proof.
  intros w b w' loading_b Hm Ha Hnew Hra Hrb.
  pose proof (wf_history history) as [Hcore _]. fold w in Hcore.
  destruct (step_select_new w fb [] Hm Hnew) as (Hui & Hin & Hm').
  fold w' in Hui, Hin, Hm'. fold loading_b in Hui.
  assert (Hab : a <> b).
  { pose proof (find_call_bound _ a _ fa (wf_calls w Hcore) Ha). unfold b. lia. }
  assert (Ha' : find_call a (inflight w') = Some fa)
    by (rewrite Hin; apply find_call_app, Ha).
  assert (Hb' : find_call b (inflight w') = Some fb)
    by (rewrite Hin; apply find_call_fresh, Hcore).
  assert (Hnull : result_renders (analysis (ui w')) = true)
    by (rewrite Hui; reflexivity).
  destruct (settle_twice w' b a fb fa envb enva Hm' (not_eq_sym Hab) Hb' Ha' Hnull Hrb Hra)
    as (Hmba & Htba & Hba).
  destruct (settle_twice w' a b fa fb enva envb Hm' Hab Ha' Hb' Hnull Hra Hrb)
    as (Hmab & Htab & Hord).
  rewrite Hui in Hba, Hord.
  do 4 (split; [assumption|]).
  split; [exact Hba|]. split; [exact Hord|]. split.
  - intros Hkind. rewrite Hord.
    destruct (analyzeFoodImage enva fa), (analyzeFoodImage envb fb);
      simpl in Hkind; try contradiction; reflexivity.
  - intros ra Hresult. rewrite Hba, Hresult.
    destruct (analyzeFoodImage envb fb); reflexivity.
Qed.

Lemma C2_witness :
  analysis
    (ui (run (step (run mount [FileSelect (Some [Sample.pancakes]); Reset])
                   (FileSelect (Some [Sample.car])))
             [ Settle 1 (Sample.replies Sample.not_food_body);
               Settle 0 (Sample.replies Sample.pancakes_body) ]))
  = Sample.pancakes_result.
Proof.
  destruct (C2_completions_apply_in_order_of_arrival
              [FileSelect (Some [Sample.pancakes]); Reset] 0
              Sample.pancakes Sample.car
              (Sample.replies Sample.pancakes_body)
              (Sample.replies Sample.not_food_body)
              eq_refl eq_refl eq_refl eq_refl eq_refl)
    as (_ & _ & _ & _ & _ & _ & _ & Hlast).
  exact (Hlast Sample.pancakes_result eq_refl).
Defined.

(* ------------------------------------------------------------------------- *)
(** ** The presentation *)
(* ------------------------------------------------------------------------- *)

Lemma orderly_renders_one (w : World) :
  orderly w -> exists v, renderContent (ui w) = [v].
Proof.
  unfold renderContent.
  intros [(Hf & Hu) | (f & u & Hf & Hu & [(Hl & He & Ha & _) | (Hl & _ & [(m & He & Hm & Ha) | (He & Ha)])])];
    rewrite Hf, ?Hu, ?Hl, ?He, ?Ha; simpl.
  - eexists; reflexivity.
  - eexists; reflexivity.
  - rewrite Hm. eexists; reflexivity.
  - destruct (truthy_opt (get (analysis (ui w)) "isFood")); eexists; reflexivity.
Qed.

Lemma mounted_before (w : World) (e : Event) :
  mounted (step w e) = true -> mounted w = true.
Proof.
  destruct (mounted w) eqn:Hm; [reflexivity|].
  destruct e as [files| | |call env|]; unfold step; rewrite ?Hm; auto.
  destruct (find_call call (inflight w)); cbn [mounted set_inflight]; congruence.
Qed.

(** A completion after which the component is mounted was followed by a
    render that did not throw. *)
Lemma settle_mounted (w : World) (call : nat) (env : Env) (f : File) :
  find_call call (inflight w) = Some f ->
  mounted (step w (Settle call env)) = true ->
  throws (performAnalysis_resume (analyzeFoodImage env f) (ui w)) = false.
Proof.
  intros Hf Hm'. pose proof (mounted_before _ _ Hm') as Hm.
  unfold step in Hm'. rewrite Hf, Hm in Hm'. cbv zeta in Hm'.
  destruct (throws (performAnalysis_resume (analyzeFoodImage env f) (ui w)));
    [discriminate Hm' | reflexivity].
Qed.

Lemma orderly_step (w : World) (e : Event) :
  wf w -> orderly w -> mounted (step w e) = true ->
  offered w e = true ->
  negb (issues_call e) || no_call_in_flight w = true ->
  delivers_truthy w e = true ->
  orderly (step w e).
Proof.
  intros Hwf Hord Hm' Hoff Hone Hobj.
  pose proof (mounted_before w e Hm') as Hm.
  destruct e as [files| | |call env|].
  - (* the file input of the start screen *)
    simpl in Hoff, Hone. rewrite Hm in Hoff. simpl in Hoff.
    apply negb_true_iff in Hoff.
    assert (Hnone : imageFile (ui w) = None /\ imageUrl (ui w) = None).
    { destruct Hord as [H | (f & u & Hf & Hu & _)]; [exact H|].
      unfold shows_image in Hoff. rewrite Hf, Hu in Hoff. discriminate. }
    destruct Hnone as [Hf Hu].
    destruct files as [[|file0 rest]|].
    + rewrite (proj2 (proj2 (proj2 (empty_selection w)))). auto.
    + destruct (step_select_new w file0 rest Hm) as (Hui & Hin & _).
      { rewrite Hf. reflexivity. }
      right. exists file0, (next_url w). rewrite Hui, Hin. simpl.
      repeat split. left. repeat split.
      unfold no_call_in_flight in Hone. destruct (inflight w); [|discriminate].
      eexists; reflexivity.
    + rewrite (proj1 (proj2 (proj2 (empty_selection w)))). auto.
  - (* "Upload New Photo" *)
    left. destruct (step_reset w Hwf Hm) as (Hui & _). rewrite Hui. auto.
  - (* "Try Again" *)
    simpl in Hoff, Hone. rewrite Hm in Hoff. simpl in Hoff.
    unfold shows_error, shows_image in Hoff.
    destruct (imageFile (ui w)) as [f|] eqn:Hf; [|discriminate].
    destruct Hwf as [Hcore _].
    pose proof (wf_heap w Hcore f Hf) as Hlt.
    assert (Hnew : Nat.eqb (fid f) (heap w) = false) by (apply Nat.eqb_neq; lia).
    unfold no_call_in_flight in Hone. destruct (inflight w) eqn:Hin; [|discriminate].
    right. exists (File_copy (heap w) f), (next_url w).
    simpl. rewrite Hm. unfold tryAgain, commit. rewrite Hf. simpl. rewrite Hnew.
    unfold effect, run_cleanup. simpl. destruct (cleanup w); simpl; rewrite Hin;
      (repeat split; left; repeat split; eexists; reflexivity).
  - (* a completion *)
    simpl in Hoff, Hobj.
    destruct (find_call call (inflight w)) as [file|] eqn:Hc; [|discriminate].
    destruct (step_settle_ui w call env file Hm Hc) as (Hui & Hin).
    destruct Hord as [(Hf & Hu) | (f & u & Hf & Hu & [(Hl & He & Ha & (c & Hone')) | (_ & Hnil & _)])].
    + left. rewrite Hui. unfold performAnalysis_resume.
      destruct (analyzeFoodImage env file); simpl; auto.
    + right. exists f, u. rewrite Hui, Hin. unfold performAnalysis_resume.
      assert (Hdrop : drop_call call (inflight w) = []).
      { rewrite Hone' in *. destruct c as [n g]. simpl in *.
        destruct (Nat.eqb n call); [reflexivity | discriminate]. }
      destruct (analyzeFoodImage env file) as [v|err]; simpl;
        (split; [exact Hf|]); (split; [exact Hu|]); right;
        (split; [reflexivity|]); (split; [exact Hdrop|]).
      * right. split; assumption.
      * left. eexists. split; [reflexivity|]. split; [reflexivity | exact Ha].
    + rewrite Hnil in Hc. discriminate.
  - simpl in Hm'. rewrite Hm in Hm'. discriminate.
Qed.

Lemma orderly_run (trace : list Event) (w : World) :
  wf w -> orderly w -> one_at_a_time w trace = true ->
  mounted (run w trace) = true -> orderly (run w trace).
Proof.
  revert w. induction trace as [|e trace IH]; simpl; intros w Hwf Hord Hone Hm.
  - exact Hord.
  - apply andb_prop in Hone as [Hone Hrest].
    apply andb_prop in Hone as [Hone Hobj].
    apply andb_prop in Hone as [Hoff Hserial].
    assert (Hme : mounted (step w e) = true).
    { clear -Hm. revert Hm. generalize (step w e). induction trace as [|e' t IH];
        simpl; intros w' H; [exact H|]. eapply mounted_before, IH, H. }
    apply IH; auto using wf_step, orderly_step.
Qed.

(** While the component is mounted the last render did not throw. *)
Lemma step_no_throw (w : World) (e : Event) :
  (mounted w = true -> throws (ui w) = false) ->
  mounted (step w e) = true -> throws (ui (step w e)) = false.
Proof.
  intros Hinv Hm'. pose proof (mounted_before w e Hm') as Hm.
  destruct e as [files| | |call env|].
  - destruct files as [[|file0 rest]|].
    + rewrite (proj2 (proj2 (proj2 (empty_selection w)))). auto.
    + apply no_throw_without_analysis.
      unfold step. rewrite Hm. unfold commit, received.
      cbn [ui set_ui handleFileSelect imageFile setImageFile].
      destruct (same_object (imageFile (ui w)) (Some file0)); [reflexivity|].
      unfold effect.
      match goal with
      | |- context [run_cleanup ?x] =>
          destruct (run_cleanup_frame x) as (Hui & _); rewrite Hui
      end.
      reflexivity.
    + rewrite (proj1 (proj2 (proj2 (empty_selection w)))). auto.
  - apply no_throw_without_analysis.
    unfold step. rewrite Hm. unfold commit.
    cbn [ui set_ui handleReset imageFile setImageFile setIsLoading setError
         setAnalysis setImageUrl].
    destruct (same_object (imageFile (ui w)) None); [reflexivity|].
    unfold effect.
    match goal with
    | |- context [run_cleanup ?x] =>
        destruct (run_cleanup_frame x) as (Hui & _); rewrite Hui
    end.
    reflexivity.
  - unfold step. rewrite Hm. unfold commit, tryAgain.
    destruct (imageFile (ui w)) as [f|] eqn:Hf.
    + cbn [ui set_ui set_heap imageFile setImageFile].
      destruct (same_object (Some f) (Some (File_copy (heap w) f))).
      * cbn [ui set_ui set_heap]. rewrite throws_spec.
        rewrite throws_spec in Hinv. specialize (Hinv Hm).
        unfold shows_image in *. cbn [imageFile imageUrl setImageFile analysis] in *.
        rewrite Hf in Hinv. exact Hinv.
      * apply no_throw_without_analysis. unfold effect.
        match goal with
        | |- context [run_cleanup ?x] =>
            destruct (run_cleanup_frame x) as (Hui & _); rewrite Hui
        end.
        reflexivity.
    + rewrite Hf. cbn [same_object]. auto.
  - unfold step in *. destruct (find_call call (inflight w)) as [file|]; [|auto].
    rewrite Hm in *. cbv zeta in *.
    destruct (throws (performAnalysis_resume (analyzeFoodImage env file) (ui w))) eqn:Ht;
      [discriminate Hm' | exact Ht].
  - unfold step in Hm'. rewrite Hm in Hm'. discriminate Hm'.
Qed.

Lemma run_no_throw (trace : list Event) (w : World) :
  (mounted w = true -> throws (ui w) = false) ->
  mounted (run w trace) = true -> throws (ui (run w trace)) = false.
Proof.
  revert w. induction trace as [|e trace IH]; intros w Hinv Hm; cbn [run] in *.
  - auto.
  - apply IH; [|exact Hm]. apply step_no_throw, Hinv.
Qed.

Lemma mounted_never_throws (history : list Event) :
  mounted (run mount history) = true -> throws (ui (run mount history)) = false.
Proof. apply run_no_throw. reflexivity. Qed.

Lemma orderly_mount : orderly mount.
Proof. left. split; reflexivity. Qed.

(** C6, as the specification states it, fails.  With an earlier call still
    in flight the state can hold an error and a result at once, and both
    blocks are rendered; with the body [null] no block is rendered.  Every
    event of the two traces is one the page offers. *)
Lemma C6_two_blocks_or_none :
  feasible mount Sample.stale_failure = true
  /\ renderContent (ui (run mount Sample.stale_failure))
     = [ ErrorView "Failed to analyze the image. Failed to fetch";
         ResultView Sample.pancakes_result ]
  /\ feasible mount Sample.null_body = true
  /\ renderContent (ui (run mount Sample.null_body)) = [].
Proof. repeat split; reflexivity. Qed.

(** C6, amended.  [renderContent] is a function of the five cells alone.
    In every state reached by events the page offers, with an image selected
    or retried only while no call is in flight and with truthy values as
    results, and in which the component is mounted (it has not been removed,
    neither by its parent nor by a render that threw), the render does not
    throw and it renders exactly one of the five views. *)
Theorem C6_one_view_when_calls_do_not_overlap (history : list Event) :
  one_at_a_time mount history = true ->
  mounted (run mount history) = true ->
  throws (ui (run mount history)) = false
  /\ renders (renderContent (ui (run mount history)))
  /\ exists v, renderContent (ui (run mount history)) = [v].
Proof.
  intros Hone Hm.
  pose proof (mounted_never_throws history Hm) as Ht.
  split; [exact Ht|]. split; [apply no_throw_renders, Ht|].
  apply orderly_renders_one.
  apply orderly_run; auto using wf_mount, orderly_mount.
Qed.

Lemma C6_witness :
  exists v,
    renderContent
      (ui (run mount [ FileSelect (Some [Sample.pancakes]); Settle 0 Sample.offline;
                       Retry; Settle 1 (Sample.replies Sample.pancakes_body) ]))
    = [v].
Proof.
  apply (C6_one_view_when_calls_do_not_overlap
           [ FileSelect (Some [Sample.pancakes]); Settle 0 Sample.offline;
             Retry; Settle 1 (Sample.replies Sample.pancakes_body) ]);
    reflexivity.
Defined.

(* ------------------------------------------------------------------------- *)
(** ** Scenarios *)
(* ------------------------------------------------------------------------- *)

(** The scenario of the specification: the pancakes body gives the succeeded
    state with those fields, and no [friendlyAdvice]. *)
Example pancakes_scenario :
  Succeeded Sample.pancakes_result
    (ui (submit_and_settle mount Sample.pancakes (Sample.replies Sample.pancakes_body)))
  /\ get Sample.pancakes_result "friendlyAdvice" = None
  /\ renderContent
       (ui (submit_and_settle mount Sample.pancakes (Sample.replies Sample.pancakes_body)))
     = [ResultView Sample.pancakes_result].
Proof. repeat split; reflexivity. Qed.

(** A failed read rejects with the reader's event, which is not an [Error]:
    the user sees the fallback message. *)
Example read_error_scenario :
  let env := {| reader := fun _ => OnError; generateContent := fun _ => Rejected NotAnError |} in
  fileToPart env Sample.pancakes = Rejected NotAnError
  /\ error (ui (submit_and_settle mount Sample.pancakes env))
     = Some "Failed to analyze the image. An unknown error occurred.".
Proof. split; reflexivity. Qed.

(** A network failure reaches the user with its own message. *)
Example offline_scenario :
  Failed "Failed to analyze the image. Failed to fetch"
    (ui (submit_and_settle mount Sample.pancakes Sample.offline)).
Proof. repeat split; reflexivity. Qed.

(** A result with a truthy [isFood] and no [recipe]: the render after the
    completion throws, the component is removed and its preview revoked. *)
Example partial_result_scenario :
  let w := submit_and_settle mount Sample.pancakes (Sample.replies Sample.partial_body) in
  analyzeFoodImage (Sample.replies Sample.partial_body) Sample.pancakes
  = Resolved Sample.partial_result
  /\ Result.renderResult Sample.partial_result = None
  /\ mounted w = false /\ live w = [] /\ revoked w = [0].
Proof. repeat split; reflexivity. Qed.

(** A response without text: the user sees the message of the TypeError. *)
Example no_text_scenario :
  Failed ("Failed to analyze the image. " ++ no_text_message)%string
    (ui (submit_and_settle mount Sample.pancakes Sample.silent)).
Proof. repeat split; reflexivity. Qed.

(** An [isFood] that is a number too small for a double is zero, so falsy:
    the non-food block is shown. *)
Example underflowing_number_scenario :
  renderContent
    (ui (submit_and_settle mount Sample.pancakes
           (Sample.replies (Sample.json "{'isFood':1e-400}"))))
  = [NonFoodView]
  /\ truthy (JNumber "5e-324") = true
  /\ truthy (JNumber "2e-324") = false
  /\ truthy (JNumber "-0.0e5") = false.
Proof. repeat split; reflexivity. Qed.

(** An escaped surrogate pair is one code point: four bytes of UTF-8. *)
Example surrogate_pair_scenario :
  JSON_parse (Sample.json "'\ud83d\ude00'")
  = Some (JString (String (chr 240) (String (chr 159) (String (chr 152)
                     (String (chr 128) EmptyString))))).
Proof. reflexivity. Qed.

(** Outside the bare media types: a file without a declared type is sent as
    [application/octet-stream], the type the reader writes into the data URL,
    and of a declared type with a parameter only the part before the [;] is
    kept. *)
Example untyped_file_is_an_octet_stream :
  fileToPart Sample.offline
    {| fid := 2; contents := [x00]; name := "photo.heic"; type := EmptyString |}
  = Resolved {| inlineData := {| mimeType := "application/octet-stream";
                                 data := "AA==" |} |}.
Proof. reflexivity. Qed.

Example type_parameter_is_dropped :
  fileToPart Sample.offline
    {| fid := 3; contents := [x3c]; name := "icon.svg";
       type := "image/svg+xml;charset=utf-8" |}
  = Resolved {| inlineData := {| mimeType := "image/svg+xml"; data := "PA==" |} |}.
Proof. reflexivity. Qed.

(* ------------------------------------------------------------------------- *)
(** ** More on the encoder *)
(* ------------------------------------------------------------------------- *)

Lemma split_without (sep : ascii) (s : string) :
  without sep s = true -> split sep s = [s].
Proof.
  induction s as [|c s IH]; simpl; [reflexivity|].
  intros H. apply andb_prop in H as [Hc Hs]. apply negb_true_iff in Hc.
  rewrite Hc, (IH Hs). reflexivity.
Qed.

Lemma split_never_empty (sep : ascii) (s : string) : 1 <= List.length (split sep s).
Proof.
  induction s as [|c s IH]; simpl; [lia|].
  destruct (Ascii.eqb c sep); simpl; [lia|].
  destruct (split sep s); simpl in *; lia.
Qed.

Lemma split_with (sep : ascii) (s : string) :
  without sep s = false -> 2 <= List.length (split sep s).
Proof.
  induction s as [|c s IH]; simpl; [discriminate|].
  destruct (Ascii.eqb c sep); simpl.
  - intros _. pose proof (split_never_empty sep s). lia.
  - intros H. specialize (IH H). destruct (split sep s) as [|p ps]; simpl in *; lia.
Qed.

Lemma split_pieces (sep : ascii) (s : string) :
  Forall (fun piece => without sep piece = true) (split sep s).
Proof.
  induction s as [|c s IH]; simpl; [repeat constructor|].
  destruct (Ascii.eqb c sep) eqn:E.
  - constructor; [reflexivity | exact IH].
  - destruct (split sep s) as [|p ps]; [repeat constructor; simpl; rewrite E; reflexivity|].
    inversion IH as [|? ? Hp Hps]; subst. constructor; [|exact Hps].
    simpl. rewrite E, Hp. reflexivity.
Qed.

Lemma until_semicolon_without (s g : string) :
  until_semicolon s = Some g -> without ";" g = true.
Proof.
  revert g. induction s as [|c s IH]; intros g; [discriminate|].
  cbn [until_semicolon]. destruct (Ascii.eqb c ";") eqn:E.
  - intros H. injection H as <-. reflexivity.
  - destruct (starts_with_any line_terminators (String c s)); [discriminate|].
    destruct (until_semicolon s) as [g'|]; [|discriminate].
    intros H. injection H as <-. simpl. rewrite E, (IH g' eq_refl). reflexivity.
Qed.

Lemma match_colon_semicolon_without (s g : string) :
  match_colon_semicolon s = Some g -> without ";" g = true.
Proof.
  induction s as [|c s IH]; [discriminate|]. cbn [match_colon_semicolon].
  destruct (Ascii.eqb c ":"); [|exact IH].
  destruct (until_semicolon s) as [g'|] eqn:E; [|exact IH].
  intros H. injection H as <-. eapply until_semicolon_without, E.
Qed.

(** X1.  When the read of the file fails, [fileToPart] rejects with the
    reader's event, the analysis rejects with it whatever the hosted model
    would answer, and the user is shown the fallback message. *)
Theorem read_failure_gives_the_fallback_message
  (history : list Event) (env : Env) (file : File) :
  let w := run mount history in
  mounted w = true -> same_object (imageFile (ui w)) (Some file) = false ->
  reader env file = OnError ->
  fileToPart env file = Rejected NotAnError
  /\ analyzeFoodImage env file = Rejected NotAnError
  /\ Failed "Failed to analyze the image. An unknown error occurred."
       (ui (submit_and_settle w file env)).
Proof.
  intros w Hm Hnew Hr.
  assert (Hp : fileToPart env file = Rejected NotAnError)
    by (unfold fileToPart; rewrite Hr; reflexivity).
  assert (Ha : analyzeFoodImage env file = Rejected NotAnError)
    by (unfold analyzeFoodImage; rewrite Hp; reflexivity).
  repeat split; auto; unfold w;
    rewrite submit_and_settle_ui by auto using wf_history; rewrite Ha; reflexivity.
Qed.

Lemma read_failure_witness :
  Failed "Failed to analyze the image. An unknown error occurred."
    (ui (submit_and_settle (run mount []) Sample.pancakes
           {| reader := fun _ => OnError; generateContent := fun _ => Rejected NotAnError |})).
Proof.
  apply (read_failure_gives_the_fallback_message []
           {| reader := fun _ => OnError; generateContent := fun _ => Rejected NotAnError |}
           Sample.pancakes); reflexivity.
Defined.

(** X2.  [fileToPart] fails with "Invalid data URL" exactly when the reader
    delivers a text without a comma. *)
Theorem invalid_data_url_iff_no_comma (env : Env) (file : File) :
  fileToPart env file = Rejected (ErrorObj "Invalid data URL")
  <-> exists d, reader env file = OnLoad d /\ without "," d = true.
Proof.
  unfold fileToPart. destruct (reader env file) as [d|]; cbn [await].
  - destruct (without "," d) eqn:Hc.
    + rewrite (split_without _ _ Hc). simpl. split; [eauto | reflexivity].
    + pose proof (split_with _ _ Hc) as Hlen.
      destruct (Nat.ltb_spec (List.length (split "," d)) 2) as [Hlt|_]; [lia|].
      split.
      * destruct (match_colon_semicolon (nth 0 (split "," d) EmptyString)) as [g|];
          [destruct (negb (truthy_string g))|]; discriminate.
      * intros (d' & Hd & Hw). injection Hd as <-. congruence.
  - split; [discriminate | intros (d & Hd & _); discriminate].
Qed.

(** X3.  Whatever the reader delivers, a part that [fileToPart] returns has
    a mime type that is not empty and has no semicolon, and a payload that
    has no comma. *)
Theorem part_is_well_formed (env : Env) (file : File) (part : Part) :
  fileToPart env file = Resolved part ->
  truthy_string (mimeType (inlineData part)) = true
  /\ without ";" (mimeType (inlineData part)) = true
  /\ without "," (data (inlineData part)) = true
  /\ exists d, reader env file = OnLoad d /\ without "," d = false.
Proof.
  unfold fileToPart. destruct (reader env file) as [d|]; cbn [await]; [|discriminate].
  destruct (Nat.ltb_spec (List.length (split "," d)) 2) as [Hlt|Hge]; [discriminate|].
  destruct (match_colon_semicolon (nth 0 (split "," d) EmptyString)) as [g|] eqn:Hg;
    [|discriminate].
  destruct (truthy_string g) eqn:Ht; simpl; [|discriminate].
  intros H. injection H as <-. simpl.
  split; [exact Ht|]. split; [eapply match_colon_semicolon_without, Hg|]. split.
  - pose proof (split_pieces "," d) as Hall. rewrite Forall_forall in Hall.
    apply Hall, nth_In. lia.
  - exists d. split; [reflexivity|].
    destruct (without "," d) eqn:Hc; [|reflexivity].
    rewrite (split_without _ _ Hc) in Hge. simpl in Hge. lia.
Qed.

Lemma part_is_well_formed_witness :
  truthy_string "image/png" = true /\ without ";" "image/png" = true
  /\ without "," "iVBORw==" = true.
Proof.
  destruct (part_is_well_formed Sample.offline Sample.pancakes
              {| inlineData := {| mimeType := "image/png"; data := "iVBORw==" |} |}
              eq_refl) as (H1 & H2 & H3 & _).
  repeat split; assumption.
Defined.

Lemma data_url_shape_with (t tail payload : string) :
  (t ++ tail ++ String "," payload)%string = ((t ++ tail) ++ String "," payload)%string.
Proof. induction t as [|c t IH]; simpl; [reflexivity | rewrite IH; reflexivity]. Qed.

(** X4.  Of a declared type with parameters, [essence;parameters],
    [fileToPart] keeps the essence: the mime type of the part is the text
    before the first semicolon, and the payload still decodes to the bytes
    of the file. *)
Theorem type_parameters_are_dropped (env : Env) (f : File) (essence parameters : string) :
  reader env f = OnLoad (readAsDataURL f) ->
  type f = (essence ++ String ";" parameters)%string ->
  bare_media_type essence = true ->
  without "," parameters = true ->
  fileToPart env f =
    Resolved {| inlineData := {| mimeType := essence;
                                 data := base64_encode (contents f) |} |}
  /\ base64_decode (base64_encode (contents f)) = Some (contents f).
Proof.
  intros Hread Htype Hbare Hpar. split; [|apply base64_roundtrip].
  apply andb_prop in Hbare as [Hne Hchars].
  assert (Hd : declared_or_default (type f) = type f)
    by (rewrite Htype; destruct essence; [discriminate Hne | reflexivity]).
  unfold fileToPart. rewrite Hread. cbn [await]. unfold readAsDataURL.
  rewrite Hd, Htype.
  replace ("data:" ++ (essence ++ String ";" parameters) ++ ";base64," ++ base64_encode (contents f))%string
    with (("data:" ++ essence ++ String ";" (parameters ++ ";base64"))
          ++ String "," (base64_encode (contents f)))%string.
  - rewrite split_at_separator.
    + cbn [List.length Nat.ltb Nat.leb nth].
      replace (match_colon_semicolon ("data:" ++ essence ++ String ";" (parameters ++ ";base64")))
        with (Some essence).
      * rewrite Hne. reflexivity.
      * symmetry. simpl. rewrite (until_semicolon_type essence _ Hchars). reflexivity.
    + simpl. rewrite without_append, (type_without_comma _ Hchars). simpl.
      rewrite without_append, Hpar. reflexivity.
    + apply base64_without_comma.
  - simpl. do 5 f_equal. clear.
    induction essence as [|c e IH]; simpl.
    + f_equal. induction parameters as [|c p IH]; simpl; [reflexivity|].
      rewrite IH. reflexivity.
    + rewrite IH. reflexivity.
Qed.

Lemma type_parameters_witness :
  fileToPart Sample.offline
    {| fid := 3; contents := [x3c]; name := "icon.svg";
       type := "image/svg+xml;charset=utf-8" |}
  = Resolved {| inlineData := {| mimeType := "image/svg+xml"; data := "PA==" |} |}.
Proof.
  apply (type_parameters_are_dropped Sample.offline
           {| fid := 3; contents := [x3c]; name := "icon.svg";
              type := "image/svg+xml;charset=utf-8" |}
           "image/svg+xml" "charset=utf-8"); reflexivity.
Defined.

(** X5.  A file without a declared type is accepted whatever its bytes: the
    reader writes [application/octet-stream] into the data URL, as Chromium
    and jsdom do, so that is the mime type of the part, and the payload
    decodes to the bytes of the file. *)
Theorem untyped_file_is_sent_as_octet_stream (env : Env) (f : File) :
  reader env f = OnLoad (readAsDataURL f) ->
  type f = EmptyString ->
  fileToPart env f =
    Resolved {| inlineData := {| mimeType := "application/octet-stream";
                                 data := base64_encode (contents f) |} |}
  /\ base64_decode (base64_encode (contents f)) = Some (contents f).
Proof.
  intros Hread Htype. split; [|apply base64_roundtrip].
  apply fileToPart_of_bare_url; [|reflexivity].
  rewrite Hread. unfold readAsDataURL. rewrite Htype. reflexivity.
Qed.

Lemma untyped_file_witness :
  fileToPart Sample.offline
    {| fid := 2; contents := [x00; x01]; name := "photo.heic"; type := EmptyString |}
  = Resolved {| inlineData := {| mimeType := "application/octet-stream";
                                 data := "AAE=" |} |}.
Proof.
  apply (untyped_file_is_sent_as_octet_stream Sample.offline
           {| fid := 2; contents := [x00; x01]; name := "photo.heic"; type := EmptyString |});
    reflexivity.
Defined.

(* ------------------------------------------------------------------------- *)
(** ** More on the client *)
(* ------------------------------------------------------------------------- *)

(** X6.  A failure of the encoder or of the call to the hosted model is
    passed on as it is: the analysis rejects with the very value that was
    thrown, and the controller ends in the failed state with the message of
    that value after the fixed prefix. *)
Theorem failures_before_the_response_pass_through
  (history : list Event) (env : Env) (file : File) (e : Thrown) :
  let w := run mount history in
  mounted w = true -> same_object (imageFile (ui w)) (Some file) = false ->
  (fileToPart env file = Rejected e
   \/ exists part, fileToPart env file = Resolved part
                   /\ generateContent env (request_for part) = Rejected e) ->
  analyzeFoodImage env file = Rejected e
  /\ Failed ("Failed to analyze the image. " ++ errorMessage e)%string
       (ui (submit_and_settle w file env)).
Proof.
  intros w Hm Hnew Hcause.
  assert (Ha : analyzeFoodImage env file = Rejected e).
  { unfold analyzeFoodImage. destruct Hcause as [Hp | (part & Hp & Hg)]; rewrite Hp; simpl.
    - reflexivity.
    - rewrite Hg. reflexivity. }
  split; [exact Ha|]. unfold w.
  rewrite submit_and_settle_ui by auto using wf_history. rewrite Ha. repeat split.
Qed.

Lemma failures_pass_through_witness :
  analyzeFoodImage Sample.offline Sample.pancakes = Rejected (ErrorObj "Failed to fetch")
  /\ Failed "Failed to analyze the image. Failed to fetch"
       (ui (submit_and_settle (run mount []) Sample.pancakes Sample.offline)).
Proof.
  apply (failures_before_the_response_pass_through [] Sample.offline Sample.pancakes
           (ErrorObj "Failed to fetch") eq_refl eq_refl).
  right. exists {| inlineData := {| mimeType := "image/png"; data := "iVBORw==" |} |}.
  split; reflexivity.
Defined.

(** X7.  An analysis that resolves comes from a response: the image was
    encoded, the hosted model answered the request built around it, the
    answer carried no block reason, it had a text, and the value is what
    [JSON.parse] makes of the trimmed text. *)
Theorem resolved_analysis_is_the_parsed_body (env : Env) (file : File) (v : JSON) :
  analyzeFoodImage env file = Resolved v ->
  exists part response body,
    fileToPart env file = Resolved part
    /\ generateContent env (request_for part) = Resolved response
    /\ truthy_reason (blockReason response) = false
    /\ text response = Some body
    /\ JSON_parse (trim body) = Some v.
Proof.
  unfold analyzeFoodImage.
  destruct (fileToPart env file) as [part|e] eqn:Hp; simpl; [|discriminate].
  destruct (generateContent env (request_for part)) as [response|e] eqn:Hg; simpl;
    [|discriminate].
  destruct (truthy_reason (blockReason response)) eqn:Hb; [discriminate|].
  destruct (text response) as [body|] eqn:Ht; [|discriminate].
  destruct (JSON_parse (trim body)) as [v'|] eqn:Hj; [|discriminate].
  intros H. injection H as <-. exists part, response, body. auto.
Qed.

Lemma resolved_analysis_witness :
  exists part response body,
    fileToPart (Sample.replies Sample.pancakes_body) Sample.pancakes = Resolved part
    /\ generateContent (Sample.replies Sample.pancakes_body) (request_for part)
       = Resolved response
    /\ truthy_reason (blockReason response) = false
    /\ text response = Some body
    /\ JSON_parse (trim body) = Some Sample.pancakes_result.
Proof.
  apply (resolved_analysis_is_the_parsed_body (Sample.replies Sample.pancakes_body)
           Sample.pancakes Sample.pancakes_result eq_refl).
Defined.

(** X8.  An analysis that rejects does so for one of five reasons: the
    encoder threw, the call to the hosted model threw, the response carried
    a block reason (the error names it), the response had no text (the
    TypeError of reading it), or the trimmed text did not parse (the
    invalid-response error). *)
Theorem rejected_analysis_has_one_of_five_causes (env : Env) (file : File) (e : Thrown) :
  analyzeFoodImage env file = Rejected e ->
  fileToPart env file = Rejected e
  \/ exists part,
       fileToPart env file = Resolved part
       /\ (generateContent env (request_for part) = Rejected e
           \/ exists response,
                generateContent env (request_for part) = Resolved response
                /\ ((exists reason, blockReason response = Some reason
                                    /\ truthy_string reason = true
                                    /\ e = ErrorObj (blocked_message reason))
                    \/ (truthy_reason (blockReason response) = false
                        /\ text response = None
                        /\ e = ErrorObj no_text_message)
                    \/ (truthy_reason (blockReason response) = false
                        /\ (exists body, text response = Some body
                                         /\ JSON_parse (trim body) = None)
                        /\ e = ErrorObj invalid_message))).
Proof.
  unfold analyzeFoodImage.
  destruct (fileToPart env file) as [part|e'] eqn:Hp; simpl.
  - intros H. right. exists part. split; [reflexivity|].
    destruct (generateContent env (request_for part)) as [response|e'] eqn:Hg; simpl in H.
    + right. exists response. split; [reflexivity|].
      destruct (truthy_reason (blockReason response)) eqn:Hb.
      * left. destruct (blockReason response) as [reason|]; [|discriminate Hb].
        exists reason. injection H as <-. simpl in Hb. auto.
      * right. destruct (text response) as [body|].
        -- right. destruct (JSON_parse (trim body)) eqn:Hj; [discriminate|].
           injection H as <-. eauto.
        -- left. injection H as <-. auto.
    + left. injection H as <-. reflexivity.
  - intros H. left. injection H as <-. reflexivity.
Qed.

Lemma rejected_analysis_witness :
  fileToPart Sample.silent Sample.pancakes = Rejected (ErrorObj no_text_message)
  \/ exists part,
       fileToPart Sample.silent Sample.pancakes = Resolved part
       /\ (generateContent Sample.silent (request_for part)
           = Rejected (ErrorObj no_text_message)
           \/ exists response,
                generateContent Sample.silent (request_for part) = Resolved response
                /\ ((exists reason, blockReason response = Some reason
                                    /\ truthy_string reason = true
                                    /\ ErrorObj no_text_message
                                       = ErrorObj (blocked_message reason))
                    \/ (truthy_reason (blockReason response) = false
                        /\ text response = None
                        /\ ErrorObj no_text_message = ErrorObj no_text_message)
                    \/ (truthy_reason (blockReason response) = false
                        /\ (exists body, text response = Some body
                                         /\ JSON_parse (trim body) = None)
                        /\ ErrorObj no_text_message = ErrorObj invalid_message))).
Proof.
  apply (rejected_analysis_has_one_of_five_causes Sample.silent Sample.pancakes
           (ErrorObj no_text_message) eq_refl).
Defined.

(* ------------------------------------------------------------------------- *)
(** ** More on the controller *)
(* ------------------------------------------------------------------------- *)

(** X9.  Selecting a file that is not the selected object, in any state the
    component can be in: whatever result or error was held is cleared, the
    controller is loading, the preview is a newly created URL and the only
    live one, exactly one call is added, on that file, and the other files
    of the selection play no part. *)
Theorem selecting_an_image_starts_one_analysis
  (history : list Event) (f : File) (others : list File) :
  let w := run mount history in
  let w' := step w (FileSelect (Some (f :: others))) in
  mounted w = true -> same_object (imageFile (ui w)) (Some f) = false ->
  Loading (ui w')
  /\ imageFile (ui w') = Some f
  /\ imageUrl (ui w') = Some (next_url w)
  /\ ~ In (next_url w) (revoked w')
  /\ live w' = [next_url w]
  /\ inflight w' = inflight w ++ [(next_call w, f)]
  /\ w' = step w (FileSelect (Some [f])).
Proof.
  intros w w' Hm Hnew. pose proof (wf_history history) as Hwf. fold w in Hwf.
  destruct (step_select_new w f others Hm Hnew) as (Hui & Hin & _).
  destruct (step_select_new_preview w f others Hwf Hm Hnew) as (Hl & Hr).
  fold w' in Hui, Hin, Hl, Hr. rewrite Hui.
  split; [repeat split|]. split; [reflexivity|]. split; [reflexivity|].
  split; [|split; [exact Hl|split; [exact Hin|reflexivity]]].
  pose proof (wf_step w (FileSelect (Some (f :: others))) Hwf) as Hwf'. fold w' in Hwf'.
  apply live_not_revoked; [exact Hwf'|]. rewrite Hl. left. reflexivity.
Qed.

Lemma selecting_an_image_witness :
  Loading (ui (step (run mount [FileSelect (Some [Sample.pancakes]); Reset])
                    (FileSelect (Some [Sample.car; Sample.pancakes]))))
  /\ imageFile (ui (step (run mount [FileSelect (Some [Sample.pancakes]); Reset])
                         (FileSelect (Some [Sample.car; Sample.pancakes]))))
     = Some Sample.car.
Proof.
  destruct (selecting_an_image_starts_one_analysis
              [FileSelect (Some [Sample.pancakes]); Reset] Sample.car [Sample.pancakes]
              eq_refl eq_refl) as (H1 & H2 & _).
  split; assumption.
Defined.

(** X10.  Handing [handleFileSelect] the very object that is selected
    restarts nothing: the error and the result are cleared, but the effect
    does not run, so no call is started, the preview stays, and after a
    failure the analysis column is left empty.  ("Try Again" avoids this by
    wrapping the file in a new object.) *)
Theorem selecting_the_same_object_restarts_nothing
  (w : World) (f : File) (others : list File) :
  let w' := step w (FileSelect (Some (f :: others))) in
  mounted w = true -> same_object (imageFile (ui w)) (Some f) = true ->
  inflight w' = inflight w
  /\ next_call w' = next_call w
  /\ live w' = live w /\ revoked w' = revoked w
  /\ imageUrl (ui w') = imageUrl (ui w)
  /\ isLoading (ui w') = isLoading (ui w)
  /\ error (ui w') = None /\ analysis (ui w') = JNull
  /\ (isLoading (ui w) = false -> imageUrl (ui w) <> None ->
      renderContent (ui w') = []).
Proof.
  intros w' Hm Hsame. unfold w'. simpl. rewrite Hm. unfold commit. simpl.
  rewrite Hsame. simpl. repeat split.
  intros Hl Hu. unfold renderContent. simpl. rewrite Hl.
  destruct (imageUrl (ui w)); [reflexivity | contradiction].
Qed.

Lemma selecting_the_same_object_witness :
  renderContent
    (ui (step (run mount [FileSelect (Some [Sample.pancakes]); Settle 0 Sample.offline])
              (FileSelect (Some [Sample.pancakes]))))
  = [].
Proof.
  destruct (selecting_the_same_object_restarts_nothing
              (run mount [FileSelect (Some [Sample.pancakes]); Settle 0 Sample.offline])
              Sample.pancakes [] eq_refl eq_refl) as (_ & _ & _ & _ & _ & _ & _ & _ & H).
  apply H; [reflexivity | discriminate].
Defined.

Lemma tidy_mount : tidy mount.
Proof.
  split; [discriminate|]. intros _. simpl. repeat split; auto; discriminate.
Qed.

Lemma tidy_effect (w : World) (f : File) :
  imageFile (ui w) = Some f -> tidy (effect w).
Proof.
  intros Hf. unfold effect. rewrite Hf. split; simpl; [discriminate|].
  intros _. rewrite Hf. repeat split; try discriminate.
  intros _ H. apply app_eq_nil in H as [_ H]. discriminate.
Qed.

Lemma tidy_step (w : World) (e : Event) : wf w -> tidy w -> tidy (step w e).
Proof.
  intros Hwf [Herr Hmnt].
  assert (Hm : mounted w = true \/ mounted w = false) by (destruct (mounted w); auto).
  destruct Hm as [Hm|Hm].
  2:{ (* after the unmount nothing is rendered *)
    assert (Hui : ui (step w e) = ui w /\ mounted (step w e) = false).
    { destruct e as [files| | |call env|]; simpl; rewrite ?Hm; auto.
      destruct (find_call call (inflight w)); simpl; rewrite ?Hm; auto. }
    destruct Hui as [Hui Hm']. split; rewrite ?Hui, ?Hm'; [exact Herr | discriminate]. }
  destruct (Hmnt Hm) as (Hurl & Hiff & Hload).
  destruct e as [files| | |call env|].
  - destruct files as [[|f others]|].
    + rewrite (proj2 (proj2 (proj2 (empty_selection w)))). split; assumption.
    + simpl. rewrite Hm. unfold commit. simpl.
      destruct (same_object (imageFile (ui w)) (Some f)) eqn:Hsame.
      * split; simpl; [discriminate|]. intros _. repeat split; auto; try discriminate.
        intros Hnone. destruct (imageFile (ui w)); simpl in Hsame; [|discriminate].
        destruct Hiff as [_ Hback]. specialize (Hback Hnone). discriminate.
      * apply (tidy_effect _ f). unfold run_cleanup. simpl.
        destruct (cleanup w); reflexivity.
    + rewrite (proj1 (proj2 (proj2 (empty_selection w)))). split; assumption.
  - simpl. rewrite Hm. unfold commit. simpl.
    destruct (imageFile (ui w)) as [f|] eqn:Hf; simpl.
    + unfold effect, run_cleanup. simpl. destruct (cleanup w); simpl;
        (split; simpl; [discriminate|]; intros _; repeat split; auto; discriminate).
    + split; simpl; [discriminate|]. intros _.
      destruct Hwf as [_ Hidle]. rewrite (Hidle Hf). repeat split; auto; discriminate.
  - simpl. rewrite Hm. unfold tryAgain, commit.
    destruct (imageFile (ui w)) as [f|] eqn:Hf; simpl.
    + destruct Hwf as [Hcore _]. pose proof (wf_heap w Hcore f Hf) as Hlt.
      assert (Hnew : Nat.eqb (fid f) (heap w) = false) by (apply Nat.eqb_neq; lia).
      rewrite Hnew. apply (tidy_effect _ (File_copy (heap w) f)).
      unfold run_cleanup. simpl. destruct (cleanup w); reflexivity.
    + rewrite Hf. simpl. unfold tidy. rewrite Hf. split; assumption.
  - destruct (find_call call (inflight w)) as [f|] eqn:Hc;
      [|unfold step; rewrite Hc; split; assumption].
    destruct (step_settle_ui w call env f Hm Hc) as (Hui & Hin).
    split.
    + rewrite Hui. unfold performAnalysis_resume.
      destruct (analyzeFoodImage env f); simpl.
      * exact Herr.
      * intros m H. injection H as <-. eexists. reflexivity.
    + intros Hm'. pose proof (settle_mounted w call env f Hc Hm') as Ht.
      destruct (step_settle w call env f Hm Hc Ht) as (Heq & _). rewrite Heq.
      cbn [ui set_ui cleanup set_inflight inflight]. unfold performAnalysis_resume.
      destruct (analyzeFoodImage env f); simpl; repeat split; auto;
        try apply Hiff; discriminate.
  - simpl. rewrite Hm. split; simpl; [|discriminate].
    unfold run_cleanup. destruct (cleanup w); exact Herr.
Qed.

Lemma tidy_history (history : list Event) : tidy (run mount history).
Proof.
  assert (H : forall w, wf w -> tidy w -> tidy (run w history)).
  { induction history as [|e history IH]; simpl; intros w Hwf Ht; [exact Ht|].
    apply IH; [apply wf_step, Hwf | apply tidy_step; assumption]. }
  apply H; [apply wf_mount | apply tidy_mount].
Qed.

(** X11.  Between events, while the component is mounted, a preview URL is
    held exactly when an image is selected, and the URL held is the one live
    object URL: it has not been revoked. *)
Theorem the_preview_shown_is_live (history : list Event) :
  let w := run mount history in
  mounted w = true ->
  (imageFile (ui w) = None <-> imageUrl (ui w) = None)
  /\ forall u, imageUrl (ui w) = Some u -> live w = [u] /\ ~ In u (revoked w).
Proof.
  intros w Hm. pose proof (wf_history history) as Hwf. fold w in Hwf.
  destruct (tidy_history history) as [_ Ht]. fold w in Ht.
  destruct (Ht Hm) as (Hurl & Hiff & _). split; [exact Hiff|].
  intros u Hu. rewrite Hurl in Hu. destruct Hwf as [Hcore _].
  rewrite (wf_live w Hcore), Hu. split; [reflexivity|].
  apply (wf_cleanup w Hcore u Hu).
Qed.

Lemma the_preview_shown_witness :
  live (run mount [FileSelect (Some [Sample.pancakes]); Settle 0 Sample.offline; Retry]) = [1]
  /\ ~ In 1 (revoked (run mount [FileSelect (Some [Sample.pancakes]);
                                 Settle 0 Sample.offline; Retry])).
Proof.
  destruct (the_preview_shown_is_live
              [FileSelect (Some [Sample.pancakes]); Settle 0 Sample.offline; Retry] eq_refl)
    as (_ & H).
  exact (H 1 eq_refl).
Defined.

(** X12.  Between events, while the component is mounted, the loading flag
    is up only if a call is in flight: a spinner on the page is always
    waiting for a call that can complete. *)
Theorem a_spinner_waits_for_a_call (history : list Event) :
  let w := run mount history in
  mounted w = true -> In LoadingView (renderContent (ui w)) ->
  isLoading (ui w) = true
  /\ exists call f, find_call call (inflight w) = Some f.
Proof.
  intros w Hm Hin. destruct (tidy_history history) as [_ Ht]. fold w in Ht.
  destruct (Ht Hm) as (_ & _ & Hload).
  assert (Hl : isLoading (ui w) = true).
  { unfold renderContent in Hin.
    destruct (imageFile (ui w)); [|destruct Hin as [H|[]]; discriminate].
    destruct (imageUrl (ui w)); [|destruct Hin as [H|[]]; discriminate].
    destruct (isLoading (ui w)); [reflexivity|]. simpl in Hin.
    apply in_app_or in Hin as [Hin|Hin].
    - destruct (error (ui w)) as [m|]; [|contradiction].
      destruct (truthy_string m); simpl in Hin; [destruct Hin as [H|[]]; discriminate | contradiction].
    - apply in_app_or in Hin as [Hin|Hin];
        match type of Hin with
        | In _ (when ?c _) => destruct c; simpl in Hin;
                              [destruct Hin as [H|[]]; discriminate | contradiction]
        end. }
  split; [exact Hl|]. specialize (Hload Hl).
  destruct (inflight w) as [|[c f] rest]; [contradiction|].
  exists c, f. simpl. rewrite Nat.eqb_refl. reflexivity.
Qed.

Lemma a_spinner_witness :
  exists call f,
    find_call call (inflight (run mount [FileSelect (Some [Sample.pancakes])])) = Some f.
Proof.
  apply (a_spinner_waits_for_a_call [FileSelect (Some [Sample.pancakes])] eq_refl).
  left. reflexivity.
Defined.

(** X13.  An error held by the controller is always the fixed prefix
    followed by a cause, so it is never the empty string: whenever an image
    is shown with an error held, the error block is rendered with it. *)
Theorem an_error_is_always_shown (history : list Event) (m : string) :
  let w := run mount history in
  error (ui w) = Some m ->
  (exists cause, m = ("Failed to analyze the image. " ++ cause)%string)
  /\ truthy_string m = true
  /\ (shows_image (ui w) = true -> In (ErrorView m) (renderContent (ui w))).
Proof.
  intros w He. destruct (tidy_history history) as [Ht _]. fold w in Ht.
  destruct (Ht m He) as (cause & ->).
  split; [eauto|]. split; [reflexivity|].
  unfold shows_image, renderContent.
  destruct (imageFile (ui w)); [|discriminate].
  destruct (imageUrl (ui w)); [|discriminate].
  intros _. rewrite He. apply in_or_app. right. apply in_or_app. left.
  simpl. left. reflexivity.
Qed.

Lemma an_error_witness :
  In (ErrorView "Failed to analyze the image. Failed to fetch")
     (renderContent (ui (run mount Sample.stale_failure))).
Proof.
  destruct (an_error_is_always_shown Sample.stale_failure
              "Failed to analyze the image. Failed to fetch" eq_refl) as (_ & _ & H).
  exact (H eq_refl).
Defined.

Lemma settle_frame (w : World) (call : nat) (env : Env) :
  imageFile (ui w) = None ->
  imageFile (ui (step w (Settle call env))) = imageFile (ui w)
  /\ imageUrl (ui (step w (Settle call env))) = imageUrl (ui w)
  /\ live (step w (Settle call env)) = live w
  /\ revoked (step w (Settle call env)) = revoked w
  /\ next_url (step w (Settle call env)) = next_url w
  /\ next_call (step w (Settle call env)) = next_call w
  /\ mounted (step w (Settle call env)) = mounted w.
Proof.
  intros Hnone. unfold step.
  destruct (find_call call (inflight w)) as [f|]; [|repeat split].
  destruct (mounted w) eqn:Hm; cbv zeta; [|repeat split; exact Hm].
  assert (Ht : throws (performAnalysis_resume (analyzeFoodImage env f) (ui w)) = false).
  { rewrite throws_spec. unfold shows_image.
    rewrite (proj1 (resume_keeps_image _ _)), Hnone. reflexivity. }
  rewrite Ht. cbn [ui set_ui set_inflight live revoked next_url next_call mounted].
  unfold performAnalysis_resume.
  destruct (analyzeFoodImage env f); repeat split; exact Hm.
Qed.

(** X14.  After a reset the page shows the start screen and goes on showing
    it whatever calls complete afterwards, in whatever order and with
    whatever outcome; these completions create no URL and start no call. *)
Theorem after_reset_late_completions_stay_hidden
  (history : list Event) (calls : list (nat * Env)) :
  let w := run mount history in
  let w' := run (step w Reset) (completions calls) in
  mounted w = true ->
  renderContent (ui w') = [StartView]
  /\ imageFile (ui w') = None
  /\ live w' = []
  /\ next_url w' = next_url w
  /\ next_call w' = next_call w.
Proof.
  intros w w' Hm. pose proof (wf_history history) as Hwf. fold w in Hwf.
  destruct (step_reset w Hwf Hm) as (Hui & Hl & _).
  assert (Hn : next_url (step w Reset) = next_url w /\ next_call (step w Reset) = next_call w).
  { simpl. rewrite Hm. unfold commit. simpl.
    destruct (imageFile (ui w)); simpl; [|auto].
    unfold effect, run_cleanup. simpl. destruct (cleanup w); simpl; auto. }
  destruct Hn as [Hnu Hnc].
  assert (Hf : imageFile (ui (step w Reset)) = None) by (rewrite Hui; reflexivity).
  unfold w'. clear w'. revert Hf Hl Hnu Hnc. generalize (step w Reset) as v.
  induction calls as [|[c env] calls IH]; cbn [completions map run fst snd];
    intros v Hf Hl Hnu Hnc.
  - unfold renderContent. rewrite Hf. auto.
  - destruct (settle_frame v c env Hf) as (H1 & _ & H3 & _ & H5 & H6 & _).
    apply IH; congruence.
Qed.

Lemma after_reset_witness :
  renderContent
    (ui (run (step (run mount [FileSelect (Some [Sample.pancakes])]) Reset)
             (completions [(0, Sample.replies Sample.pancakes_body)])))
  = [StartView].
Proof.
  apply (after_reset_late_completions_stay_hidden
           [FileSelect (Some [Sample.pancakes])]
           [(0, Sample.replies Sample.pancakes_body)] eq_refl).
Defined.

(** X15.  Selecting an image supersedes the previous one by itself:
    pressing "Upload New Photo" first and then selecting the file leaves the
    component exactly as selecting the file at once does, the old preview
    revoked once in both cases.  A second reset after a reset changes
    nothing. *)
Theorem reset_before_selecting_is_redundant (history : list Event) (f : File) :
  let w := run mount history in
  mounted w = true -> same_object (imageFile (ui w)) (Some f) = false ->
  run w [Reset; FileSelect (Some [f])] = step w (FileSelect (Some [f]))
  /\ run w [Reset; Reset] = step w Reset.
Proof.
  intros w. pose proof (wf_history history) as [Hcore Hidle]. fold w in Hcore, Hidle.
  pose proof (wf_live w Hcore) as Hlive. clear Hcore. clearbody w.
  destruct w as [[file an ld er url] m cl infl nc hp nu lv rv].
  cbn [ui mounted imageFile cleanup live] in *. intros Hm Hnew. subst m lv.
  cbn [run step mounted ui imageFile handleReset handleFileSelect received
       setIsLoading setError setAnalysis setImageUrl setImageFile set_ui set_heap].
  unfold commit.
  cbn [ui imageFile handleReset setIsLoading setError setAnalysis setImageUrl
       setImageFile set_ui].
  destruct file as [g|].
  - cbn [same_object] in *. rewrite Hnew.
    destruct cl as [u|]; unfold effect, run_cleanup; simpl;
      [destruct (Nat.eq_dec u u) as [_|N]; [|congruence]|]; simpl; rewrite ?Hnew;
      split; reflexivity.
  - rewrite (Hidle eq_refl). simpl. split; reflexivity.
Qed.

Lemma reset_before_selecting_witness :
  run (run mount [FileSelect (Some [Sample.pancakes])]) [Reset; FileSelect (Some [Sample.car])]
  = step (run mount [FileSelect (Some [Sample.pancakes])]) (FileSelect (Some [Sample.car])).
Proof.
  apply (reset_before_selecting_is_redundant [FileSelect (Some [Sample.pancakes])]
           Sample.car eq_refl eq_refl).
Defined.

(* ------------------------------------------------------------------------- *)
(** ** More on the presentation *)
(* ------------------------------------------------------------------------- *)

Import Result.

Ltac in_cases H :=
  simpl in H; repeat (destruct H as [H|H]); try discriminate H; try contradiction.

(** X16.  In any combination of the five cells, reachable or not: the start
    screen is rendered alone and exactly when no image is shown; at most
    three blocks are rendered; the non-food block and the result block are
    never rendered together; a result block is rendered for the analysis
    held, which is then an object, and an error block with the error held. *)
Theorem blocks_of_any_state (s : State) :
  (shows_image s = false <-> renderContent s = [StartView])
  /\ (In StartView (renderContent s) -> renderContent s = [StartView])
  /\ List.length (renderContent s) <= 3
  /\ (forall r, In (ResultView r) (renderContent s) ->
                ~ In NonFoodView (renderContent s)
                /\ r = analysis s /\ is_object r = true)
  /\ (forall m, In (ErrorView m) (renderContent s) -> error s = Some m).
Proof.
  unfold shows_image, renderContent.
  destruct (imageFile s) as [f|]; [destruct (imageUrl s) as [u|]|].
  2,3: (split; [split; reflexivity|]; split; [reflexivity|]; split; [simpl; lia|];
        split; [intros r [H|[]] | intros m [H|[]]]; discriminate H).
  assert (Hobj : truthy_opt (get (analysis s) "isFood") = true ->
                 is_object (analysis s) = true).
  { destruct (analysis s); simpl; auto; discriminate. }
  destruct (isLoading s); destruct (error s) as [m|];
    try destruct (truthy_string m);
    destruct (truthy (analysis s));
    destruct (truthy_opt (get (analysis s) "isFood")) eqn:Hfood;
    cbn [when app andb negb];
    (split; [split; intros H; discriminate H|]);
    (split; [intros H; in_cases H|]);
    (split; [simpl; lia|]);
    (split;
     [ intros r H; in_cases H; injection H as <-;
       (split; [intros H'; in_cases H'|]);
       (split; [reflexivity | apply Hobj; reflexivity])
     | intros m' H; in_cases H; injection H as <-; reflexivity ]).
Qed.

Lemma as_strings_items (items : list JSON) (l : list string) :
  as_strings items = Some l -> list_items items = Some (map (fun s => [Text s]) l).
Proof.
  revert l. induction items as [|x items IH]; simpl; intros l H.
  - injection H as <-. reflexivity.
  - destruct x; try discriminate.
    destruct (as_strings items) as [l'|]; [|discriminate].
    injection H as <-. rewrite (IH l' eq_refl). reflexivity.
Qed.

Lemma as_string_array_li (x : option JSON) (l : list string) :
  as_string_array x = Some l -> map_li x = Some (map (fun s => [Text s]) l).
Proof.
  destruct x as [[]|]; simpl; try discriminate. apply as_strings_items.
Qed.

Lemma as_string_child (x : option JSON) (t : string) :
  as_string x = Some t -> child_of x = Some [Text t].
Proof.
  destruct x as [[]|]; simpl; try discriminate. intros H. injection H as <-. reflexivity.
Qed.

(** X17.  A parsed value that has the type [FoodAnalysis] renders: the
    result block shows the dish name, one list item for each ingredient and
    for each step, in order, the four nutrition values, the healthier
    variation, and the tip exactly when [friendlyAdvice] is there and not
    empty.  Such a value is shown as a result when [isFood] is true and as
    "not food" when it is false. *)
Theorem a_FoodAnalysis_renders (v : JSON) (a : FoodAnalysis) :
  as_FoodAnalysis v = Some a ->
  renderResult v = Some (block_of a)
  /\ forall s, analysis s = v -> shows_image s = true ->
       In (if isFood a then ResultView v else NonFoodView) (renderContent s).
Proof.
  unfold as_FoodAnalysis.
  destruct (as_bool (get v "isFood")) as [food|] eqn:Hfood; [|discriminate].
  destruct (as_string (get v "dishName")) as [dish|] eqn:Hdish; [|discriminate].
  destruct (get v "recipe") as [[| | | | |r]|] eqn:Hr; try discriminate.
  destruct (get v "nutrition") as [[| | | | |n]|] eqn:Hn; try discriminate.
  destruct (as_string (get v "healthierVariation")) as [hv|] eqn:Hhv; [|discriminate].
  destruct (as_optional_string (get v "friendlyAdvice")) as [adv|] eqn:Hadv; [|discriminate].
  destruct (as_string_array (lookup "ingredients" r)) as [ing|] eqn:Hing; [|discriminate].
  destruct (as_string_array (lookup "steps" r)) as [st|] eqn:Hst; [|discriminate].
  destruct (as_string (lookup "calories" n)) as [cal|] eqn:Hcal; [|discriminate].
  destruct (as_string (lookup "protein" n)) as [pro|] eqn:Hpro; [|discriminate].
  destruct (as_string (lookup "carbs" n)) as [car|] eqn:Hcar; [|discriminate].
  destruct (as_string (lookup "fat" n)) as [ft|] eqn:Hft; [|discriminate].
  intros H. injection H as <-. split.
  - unfold renderResult. rewrite Hr, Hn. cbn [member get bind].
    rewrite (as_string_child _ _ Hdish), (as_string_array_li _ _ Hing),
      (as_string_array_li _ _ Hst), (as_string_child _ _ Hcal),
      (as_string_child _ _ Hpro), (as_string_child _ _ Hcar),
      (as_string_child _ _ Hft), (as_string_child _ _ Hhv).
    cbn [bind]. unfold block_of. cbn.
    destruct (get v "friendlyAdvice") as [[]|]; simpl in Hadv; try discriminate;
      injection Hadv as <-; reflexivity.
  - intros s Hs Himg. unfold shows_image in Himg. unfold renderContent.
    destruct (imageFile s); [|discriminate]. destruct (imageUrl s); [|discriminate].
    rewrite Hs. cbn [isFood].
    assert (Ht : truthy v = true)
      by (destruct v; try reflexivity; discriminate).
    rewrite Ht.
    destruct (get v "isFood") as [[]|]; simpl in Hfood; try discriminate.
    injection Hfood as <-. simpl.
    apply in_or_app. right. apply in_or_app. right.
    destruct b; simpl; auto.
Qed.

Lemma a_FoodAnalysis_witness :
  renderResult Sample.pancakes_result
  = Some {| heading := [Text "Pancakes"];
            ingredient_items := [[Text "flour"]; [Text "egg"]];
            step_items := [[Text "mix"]; [Text "cook"]];
            calories_cell := [Text "350 kcal"];
            protein_cell := [Text "8g"];
            carbs_cell := [Text "50g"];
            fat_cell := [Text "10g"];
            healthier := [Text "Use whole wheat flour."];
            tip := NoTip [] |}.
Proof.
  apply (a_FoodAnalysis_renders Sample.pancakes_result
           (mkFoodAnalysis true "Pancakes" ["flour"; "egg"] ["mix"; "cook"]
              "350 kcal" "8g" "50g" "10g" "Use whole wheat flour." None)
           eq_refl).
Defined.

Lemma list_items_length (items : list JSON) (l : list (list Atom)) :
  list_items items = Some l -> List.length l = List.length items.
Proof.
  revert l. induction items as [|x items IH]; simpl; intros l H.
  - injection H as <-. reflexivity.
  - destruct (child x); [|discriminate].
    destruct (list_items items) as [l'|]; [|discriminate].
    injection H as <-. simpl. rewrite (IH l' eq_refl). reflexivity.
Qed.

Lemma map_li_array (x : option (option JSON)) (l : list (list Atom)) :
  bind x map_li = Some l ->
  exists items, x = Some (Some (JArray items)) /\ List.length l = List.length items.
Proof.
  destruct x as [[[]|]|]; simpl; try discriminate.
  intros H. eexists. split; [reflexivity|]. apply list_items_length, H.
Qed.

Lemma member_some (x : option JSON) (key : string) (y : option JSON) :
  member x key = Some y -> exists v, x = Some v /\ v <> JNull /\ y = get v key.
Proof.
  destruct x as [v|]; [|discriminate].
  destruct v; simpl; try discriminate; intros H; injection H as <-;
    eexists; (split; [reflexivity|]); (split; [discriminate | reflexivity]).
Qed.

Lemma result_block_reads_both (a : JSON) (b : Block) :
  renderResult a = Some b ->
  get a "recipe" <> None /\ get a "nutrition" <> None.
Proof.
  unfold renderResult. intros H.
  destruct (child_of (get a "dishName")); [|discriminate]. cbn [bind] in H.
  split; intros Hn; rewrite Hn in H; cbn [member bind] in H;
    repeat match type of H with
           | context [bind ?x _] => destruct x; cbn [bind] in H; try discriminate H
           end;
    discriminate H.
Qed.

(** X18.  The result block can only be rendered for an analysis whose
    [recipe] holds arrays under [ingredients] and [steps], and whose
    [nutrition] is there and not [null]; it then has one list item for each
    element of the two arrays.  For any other analysis rendering the block
    throws. *)
Theorem the_result_block_needs_recipe_and_nutrition (a : JSON) (b : Block) :
  renderResult a = Some b ->
  (exists r ing st,
      get a "recipe" = Some r
      /\ get r "ingredients" = Some (JArray ing)
      /\ get r "steps" = Some (JArray st)
      /\ List.length (ingredient_items b) = List.length ing
      /\ List.length (step_items b) = List.length st)
  /\ (exists n, get a "nutrition" = Some n /\ n <> JNull).
Proof.
  unfold renderResult.
  destruct (child_of (get a "dishName")) as [h|]; [|discriminate]. cbn [bind].
  destruct (bind (member (get a "recipe") "ingredients") map_li) as [ing|] eqn:Hing;
    [|discriminate]. cbn [bind].
  destruct (bind (member (get a "recipe") "steps") map_li) as [st|] eqn:Hst;
    [|discriminate]. cbn [bind].
  destruct (member (get a "nutrition") "calories") as [cal|] eqn:Hcal; [|discriminate].
  intros H.
  apply map_li_array in Hing as (ings & Hing & Hli).
  apply map_li_array in Hst as (sts & Hst & Hls).
  apply member_some in Hing as (r & Hr & _ & Hri).
  apply member_some in Hst as (r' & Hr' & _ & Hrs).
  apply member_some in Hcal as (n & Hn & Hnn & _).
  rewrite Hr in Hr'. injection Hr' as <-.
  assert (Hb : ingredient_items b = ing /\ step_items b = st).
  { revert H. cbn [bind].
    repeat match goal with
           | |- context [bind ?x ?k] => destruct x; cbn [bind]; try discriminate
           end.
    intros H. injection H as <-. auto. }
  destruct Hb as [-> ->].
  split; [exists r, ings, sts; auto | exists n; auto].
Qed.

Lemma the_result_block_witness :
  exists n, get Sample.pancakes_result "nutrition" = Some n /\ n <> JNull.
Proof.
  apply (the_result_block_needs_recipe_and_nutrition Sample.pancakes_result
           (block_of (mkFoodAnalysis true "Pancakes" ["flour"; "egg"] ["mix"; "cook"]
                        "350 kcal" "8g" "50g" "10g" "Use whole wheat flour." None))
           eq_refl).
Defined.

(** X19.  Whether the page renders: with an analysis whose [isFood] is
    falsy no result block is on the page, so nothing is read from [recipe]
    or [nutrition] and the page renders whatever else is missing; with an
    analysis whose [isFood] is truthy and whose [recipe] or [nutrition] is
    missing, the page shows the result block and rendering it throws.  A
    number counts as truthy by its value: a literal that rounds to zero is
    falsy. *)
Theorem the_page_renders_unless_a_food_result_is_partial (s : State) :
  (truthy_opt (get (analysis s) "isFood") = false ->
   renders (renderContent s) /\ throws s = false)
  /\ (shows_image s = true ->
      truthy_opt (get (analysis s) "isFood") = true ->
      get (analysis s) "recipe" = None \/ get (analysis s) "nutrition" = None ->
      In (ResultView (analysis s)) (renderContent s)
      /\ renderResult (analysis s) = None
      /\ ~ renders (renderContent s)
      /\ throws s = true)
  /\ (forall lexeme,
      get (analysis s) "isFood" = Some (JNumber lexeme) ->
      rounds_to_zero lexeme = true ->
      renders (renderContent s) /\ throws s = false).
Proof.
  assert (Hfalsy : truthy_opt (get (analysis s) "isFood") = false ->
                   renders (renderContent s) /\ throws s = false).
  { intros Hnot. split; [|apply no_throw_when_not_food, Hnot].
    intros r Hin. apply result_view_needs_food in Hin. congruence. }
  split; [exact Hfalsy|]. split.
  2:{ intros lexeme Ha Hz. apply Hfalsy. rewrite Ha. cbn [truthy_opt truthy].
      rewrite Hz. reflexivity. }
  - intros Himg Hfood Hmiss.
    assert (Hin : In (ResultView (analysis s)) (renderContent s)).
    { unfold shows_image in Himg. unfold renderContent.
      destruct (imageFile s); [|discriminate]. destruct (imageUrl s); [|discriminate].
      rewrite Hfood.
      assert (Ht : truthy (analysis s) = true)
        by (destruct (analysis s); try reflexivity; discriminate).
      rewrite Ht. simpl. apply in_or_app. right. apply in_or_app. right.
      left. reflexivity. }
    assert (Hnone : renderResult (analysis s) = None).
    { destruct (renderResult (analysis s)) as [b|] eqn:Hb; [|reflexivity].
      destruct (result_block_reads_both (analysis s) b Hb) as [Hr Hn].
      destruct Hmiss; contradiction. }
    split; [exact Hin|]. split; [exact Hnone|].
    split; [intros Hall; exact (Hall _ Hin Hnone)|].
    apply no_throw_renders_not. intros Hall. exact (Hall _ Hin Hnone).
Qed.

Lemma the_page_renders_witness :
  In (ResultView Sample.partial_result)
     (renderContent {| imageFile := Some Sample.pancakes;
                       analysis := Sample.partial_result;
                       isLoading := false; error := None; imageUrl := Some 0 |})
  /\ renderResult Sample.partial_result = None
  /\ throws {| imageFile := Some Sample.pancakes;
               analysis := Sample.partial_result;
               isLoading := false; error := None; imageUrl := Some 0 |} = true.
Proof.
  destruct (the_page_renders_unless_a_food_result_is_partial
              {| imageFile := Some Sample.pancakes;
                 analysis := Sample.partial_result;
                 isLoading := false; error := None; imageUrl := Some 0 |})
    as (_ & H & _).
  destruct (H eq_refl eq_refl (or_introl eq_refl)) as (H1 & H2 & _ & H4).
  repeat split; assumption.
Defined.
